(** * A shallow embedding of the bond trading services

    The development follows the C++ headers of the trading system:
    [functions.hpp] (reference data and the price converter),
    [marketdataservice.hpp], [pricingservice.hpp],
    [executionservice.hpp] and [inquiryservice.hpp].

    Conventions of the embedding.
    - A [double] is an exact rational ([Qc], canonical fractions, so that
      equality of prices is Leibniz equality).  The prices of the
      fraction format are multiples of 1/256; on such values, of the
      size of an [int], the binary64 operations of the code are exact.
      NaN, infinities and rounding are not modelled.
    - An [int] and a [long] are integers ([Z]) together with their range;
      additions wrap around, and a conversion from [double] whose value
      does not fit is undefined in C++ and yields [None].
    - A [std::map<string,V>] is a [gmap string V]; [m[k] = v] is an insert
      and [m[k]] on an absent key inserts the default value.
    - A listener is known by its identity only.  [l->ProcessAdd(v)] is
      recorded as the event [(l, v)]; every operation returns the events
      it raised, in order. *)

From Stdlib Require Import ZArith QArith Qcanon Qround Lia.
From Stdlib Require Import Ascii String Decimal DecimalString DecimalZ DecimalPos.
From stdpp Require Import numbers strings list fin_maps gmap.

Local Open Scope Z_scope.

(** ** Machine numbers *)

Module Machine.

Definition INT_MIN : Z := - 2 ^ 31.
Definition INT_MAX : Z := 2 ^ 31 - 1.
Definition LONG_MIN : Z := - 2 ^ 63.
Definition LONG_MAX : Z := 2 ^ 63 - 1.

(** Two's complement reduction of an integer to [bits] bits. *)
Definition wrap (bits : Z) (z : Z) : Z :=
  (z + 2 ^ (bits - 1)) mod 2 ^ bits - 2 ^ (bits - 1).

Definition wrap_int : Z → Z := wrap 32.
Definition wrap_long : Z → Z := wrap 64.

Definition in_int (z : Z) : Prop := INT_MIN ≤ z ≤ INT_MAX.
Definition in_long (z : Z) : Prop := LONG_MIN ≤ z ≤ LONG_MAX.

(** [a + b] on [long]. *)
Definition long_add (a b : Z) : Z := wrap_long (a + b).
(** [a + b] on [int]. *)
Definition int_add (a b : Z) : Z := wrap_int (a + b).
(** [a * b] on [int]. *)
Definition int_mul (a b : Z) : Z := wrap_int (a * b).

Definition double : Type := Qc.

(** An integer seen as a [double]. *)
Definition of_Z (z : Z) : double := Q2Qc (inject_Z z).

(** The conversion of a [long] to [double], as when a [long] argument
    is passed to a [double] parameter: exact up to [2^53] in absolute
    value; beyond, the 53 leading bits are kept and the rest is rounded
    to the nearest, ties to the even significand. *)
Definition long_to_double (z : Z) : double :=
  let a := Z.abs z in
  if decide (a ≤ 2 ^ 53) then of_Z z
  else
    let e := Z.log2 a - 52 in
    let q := a / 2 ^ e in
    let r := a `mod` 2 ^ e in
    let half := 2 ^ (e - 1) in
    let q :=
      if decide (r < half) then q
      else if decide (half < r) then q + 1
      else if Z.even q then q else q + 1 in
    of_Z (Z.sgn z * (q * 2 ^ e)).

(** [floor(x)], as an integer. *)
Definition floor (x : double) : Z := Qfloor x.

(** The conversion [int i = x] of an integral [double]: undefined when
    the value is outside the range of [int]. *)
Definition to_int (z : Z) : option Z :=
  if decide (INT_MIN ≤ z ≤ INT_MAX) then Some z else None.

(** [std::to_string] on an [int]: decimal digits, with a leading minus
    sign for a negative number. *)
Definition to_string (n : Z) : string :=
  NilZero.string_of_int (Z.to_int n).

(** The decimal digit a character stands for, as a constructor of
    [Decimal.uint]. *)
Definition digit_of_char (c : ascii) : option (uint → uint) :=
  match c with
  | "0" => Some D0 | "1" => Some D1 | "2" => Some D2 | "3" => Some D3
  | "4" => Some D4 | "5" => Some D5 | "6" => Some D6 | "7" => Some D7
  | "8" => Some D8 | "9" => Some D9 | _ => None
  end%char.

(** The longest prefix of decimal digits of a string, and what follows. *)
Fixpoint digits_prefix (s : string) : uint * string :=
  match s with
  | EmptyString => (Nil, EmptyString)
  | String c rest =>
      match digit_of_char c with
      | Some d => let '(u, tl) := digits_prefix rest in (d u, tl)
      | None => (Nil, s)
      end
  end.

Definition starts_with (cs : list ascii) (s : string) : bool :=
  match s with
  | EmptyString => false
  | String c _ => bool_decide (c ∈ cs)
  end.

Definition no_digit (u : uint) : bool :=
  match u with Nil => true | _ => false end.

Definition string_tail (s : string) : string :=
  match s with
  | EmptyString => EmptyString
  | String _ rest => rest
  end.

(** [std::stod] on the fragment [digits], [digits.digits], [.digits]
    of its input syntax, read as the longest such prefix of the string;
    what follows the prefix is ignored, as [stod] does.  [None] stands
    for [std::invalid_argument] (no digit to convert) and for the inputs
    that leave the fragment: a leading blank or sign, [inf], [nan], a
    hexadecimal prefix and an exponent. *)
Definition stod (s : string) : option double :=
  let '(ip, r1) := digits_prefix s in
  if starts_with ["."]%char r1 then
    let '(fp, r3) := digits_prefix (string_tail r1) in
    if no_digit ip && no_digit fp then None
    else if starts_with ["e"; "E"]%char r3 then None
    else Some (of_Z (Z.of_uint ip)
               + of_Z (Z.of_uint fp) / of_Z (10 ^ Z.of_nat (nb_digits fp)))%Qc
  else
    if no_digit ip then None
    else if starts_with ["e"; "E"; "x"; "X"]%char r1 then None
    else Some (of_Z (Z.of_uint ip)).

(** [std::stol] in base ten on the same fragment: the longest prefix of
    digits.  A value that does not fit a [long] makes [stol] throw
    [std::out_of_range]. *)
Definition stol (s : string) : option Z :=
  let '(ip, _) := digits_prefix s in
  if no_digit ip then None
  else if decide (Z.of_uint ip ≤ LONG_MAX) then Some (Z.of_uint ip)
  else None.

End Machine.

Export Machine.

(** ** functions.hpp *)

(** Modelled from the spec: the class [Bond] of [products.hpp], which is
    not among the sources.  A bond has a product identifier, the kind of
    that identifier, a ticker, a coupon and a maturity date; the default
    constructed bond has empty fields (the identifier kind is then the
    first enumerator). *)
Inductive BondIdType := CUSIP | ISIN.

Record Bond := mkBond {
  productId : string;
  bondIdType : BondIdType;
  ticker : string;
  coupon : double;
  maturityDate : string
}.

Definition Bond_default : Bond := mkBond EmptyString CUSIP EmptyString 0%Qc EmptyString.

Definition GetProductId (b : Bond) : string := productId b.

Definition decimal (n d : Z) : double := (of_Z n / of_Z d)%Qc.

(** [GetBond]: a chain of independent tests, each of which overwrites the
    default constructed bond. *)
Definition GetBond (_cusip : string) : Bond :=
  let _bond := Bond_default in
  let _bond := if decide (_cusip = "9128283H1") then
    mkBond "9128283H1" CUSIP "US2Y" (decimal 1750 100000) "2019/11/30" else _bond in
  let _bond := if decide (_cusip = "9128283L2") then
    mkBond "9128283L2" CUSIP "US3Y" (decimal 1875 100000) "2020/12/15" else _bond in
  let _bond := if decide (_cusip = "912828M80") then
    mkBond "912828M80" CUSIP "US5Y" (decimal 2000 100000) "2022/11/30" else _bond in
  let _bond := if decide (_cusip = "9128283J7") then
    mkBond "9128283J7" CUSIP "US7Y" (decimal 2125 100000) "2024/11/30" else _bond in
  let _bond := if decide (_cusip = "9128283F5") then
    mkBond "9128283F5" CUSIP "US10Y" (decimal 2250 100000) "2027/12/15" else _bond in
  let _bond := if decide (_cusip = "912810RZ3") then
    mkBond "912810RZ3" CUSIP "US30Y" (decimal 2750 100000) "2047/12/15" else _bond in
  _bond.

(** The six identifiers [GetBond] knows. *)
Definition known_cusips : list string :=
  ["9128283H1"; "9128283L2"; "912828M80"; "9128283J7"; "9128283F5"; "912810RZ3"]%string.

(** *** Fraction price to decimal price *)

(** The locals of the splitting loop of [ConvertPrice(string)]. *)
Record split := mkSplit {
  split_count : Z;
  _stringPrice100 : string;
  _stringPrice32 : string;
  _stringPrice8 : string
}.

Definition push_back (s : string) (c : ascii) : string :=
  String.append s (String c EmptyString).

(** One iteration of the loop, on the character [c]. *)
Definition split_step (c : ascii) (st : split) : split :=
  let '(mkSplit count s100 s32 s8) := st in
  if decide (c = "-"%char) then mkSplit (int_add count 1) s100 s32 s8
  else if decide (count = 0) then mkSplit count (push_back s100 c) s32 s8
  else if decide (count = 1 ∨ count = 2) then
    mkSplit (int_add count 1) s100 (push_back s32 c) s8
  else if decide (count = 3) then
    mkSplit count s100 s32
      (push_back s8 (if decide (c = "+"%char) then "4"%char else c))
  else st.

Fixpoint split_loop (s : string) (st : split) : split :=
  match s with
  | EmptyString => st
  | String c rest => split_loop rest (split_step c st)
  end.

(** [double ConvertPrice(string)]. *)
Definition ConvertPrice_string (_stringPrice : string) : option double :=
  let st := split_loop _stringPrice (mkSplit 0 EmptyString EmptyString EmptyString) in
  _doublePrice100 ← stod (_stringPrice100 st);
  _doublePrice32 ← stod (_stringPrice32 st);
  _doublePrice8 ← stod (_stringPrice8 st);
  Some (_doublePrice100 + _doublePrice32 * 1 / of_Z 32
        + _doublePrice8 * 1 / of_Z 256)%Qc.

(** *** Decimal price to fraction price *)

(** [string ConvertPrice(double)].  The three conversions from [double]
    to [int] are the places where the function is undefined: [None]. *)
Definition ConvertPrice_double (_doublePrice : double) : option string :=
  _doublePrice100 ← to_int (floor _doublePrice);
  _doublePrice256 ← to_int (floor ((_doublePrice - of_Z _doublePrice100) * of_Z 256)%Qc);
  _doublePrice32 ← to_int (floor (of_Z _doublePrice256 / of_Z 8)%Qc);
  let _doublePrice8 := Z.rem _doublePrice256 8 in
  let _stringPrice100 := to_string _doublePrice100 in
  let _stringPrice32 := to_string _doublePrice32 in
  let _stringPrice8 := to_string _doublePrice8 in
  let _stringPrice32 :=
    if decide (_doublePrice32 < 10) then String.append "0" _stringPrice32
    else _stringPrice32 in
  let _stringPrice8 := if decide (_doublePrice8 = 4) then "+"%string else _stringPrice8 in
  Some (String.append
          (String.append (String.append _stringPrice100 "-") _stringPrice32)
          _stringPrice8).

(** ** marketdataservice.hpp *)

(** A listener registered with a service, known by its identity. *)
Definition Listener : Type := nat.

Inductive PricingSide := BID | OFFER.

Global Instance PricingSide_eq_dec : EqDecision PricingSide.
Proof. solve_decision. Defined.

Record Order := mkOrder {
  order_price : double;
  order_quantity : Z;
  order_side : PricingSide
}.

Record BidOffer := mkBidOffer {
  GetBidOrder : Order;
  GetOfferOrder : Order
}.

Record OrderBook := mkOrderBook {
  book_product : Bond;
  GetBidStack : list Order;
  GetOfferStack : list Order
}.

(** *** References

    A reference is declared [T&] or [const T&]. *)
Inductive constness := NonConst | Const.

(** A declaration [R x = e;] of a reference [x] of kind [declared] from
    an expression [e] that is a reference of kind [bound]: it is
    ill-formed when it binds a [T&] to a [const T&]. *)
Definition binds (declared bound : constness) : bool :=
  match declared, bound with
  | NonConst, Const => false
  | _, _ => true
  end.

Definition well_formed (declarations : list (constness * constness)) : bool :=
  forallb (λ d, binds d.1 d.2) declarations.

(** The getters of [OrderBook] are declared
    [const T& GetProduct() const], [const vector<Order>& GetBidStack() const]
    and [const vector<Order>& GetOfferStack() const]. *)
Definition GetProduct_returns : constness := Const.
Definition GetBidStack_returns : constness := Const.
Definition GetOfferStack_returns : constness := Const.

(** What a function whose return type is a reference hands to its
    caller: a reference to an object that outlives the call, or to a
    temporary of the [return] statement, which is destroyed when the
    function returns.  The value is the one the object held. *)
Inductive reference (A : Type) : Type :=
| Lasting (a : A)
| Temporary (a : A).

Arguments Lasting {A} a.
Arguments Temporary {A} a.

(** Reading through a reference: undefined, [None], once the object is
    destroyed. *)
Definition read {A : Type} (r : reference A) : option A :=
  match r with
  | Lasting a => Some a
  | Temporary _ => None
  end.

(** A value-initialised order book, as [orderBooks[key]] creates one for
    an absent key. *)
Definition OrderBook_default : OrderBook := mkOrderBook Bond_default [] [].

(** The values of the default-initialised locals the code may read
    before it has assigned them: [Order _bidOrder;] and
    [Order _offerOrder;] in [GetBidOffer], and [_side], [_price] and
    [_quantity] in [AlgoExecuteOrder].  Such a value is indeterminate;
    the functions that can read one take a value of this record. *)
Record indeterminate := mkIndeterminate {
  indeterminate_bid : Order;
  indeterminate_offer : Order;
  indeterminate_side : PricingSide;
  indeterminate_price : double;
  indeterminate_quantity : Z
}.

(** The body of the first loop of [GetBidOffer], on the order [b]. *)
Definition best_bid_step (acc : double * Order) (b : Order) : double * Order :=
  let _price := order_price b in
  if decide (fst acc < _price)%Qc then (_price, b) else acc.

(** The body of the second loop, on the order [o]. *)
Definition best_offer_step (acc : double * Order) (o : Order) : double * Order :=
  let _price := order_price o in
  if decide (_price < fst acc)%Qc then (_price, o) else acc.

Definition GetBidOffer (u : indeterminate) (book : OrderBook) : BidOffer :=
  let '(_, _bidOrder) :=
    foldl best_bid_step (of_Z INT_MIN, indeterminate_bid u) (GetBidStack book) in
  let '(_, _offerOrder) :=
    foldl best_offer_step (of_Z INT_MAX, indeterminate_offer u) (GetOfferStack book) in
  mkBidOffer _bidOrder _offerOrder.

Record MarketDataService := mkMarketDataService {
  orderBooks : gmap string OrderBook;
  md_listeners : list Listener;
  bookDepth : Z
}.

(** The constructor. *)
Definition MarketDataService_new : MarketDataService :=
  mkMarketDataService ∅ [] 5.

(** [l->ProcessAdd(v)] for every listener, in registration order. *)
Definition dispatch {V : Type} (listeners : list Listener) (v : V) : list (Listener * V) :=
  (λ l, (l, v)) <$> listeners.

Module MarketData.

Definition GetData (s : MarketDataService) (_key : string)
  : MarketDataService * OrderBook :=
  match orderBooks s !! _key with
  | Some b => (s, b)
  | None =>
      (mkMarketDataService (<[_key := OrderBook_default]> (orderBooks s))
         (md_listeners s) (bookDepth s), OrderBook_default)
  end.

Definition OnMessage (s : MarketDataService) (_data : OrderBook)
  : MarketDataService * list (Listener * OrderBook) :=
  (mkMarketDataService
     (<[GetProductId (book_product _data) := _data]> (orderBooks s))
     (md_listeners s) (bookDepth s),
   dispatch (md_listeners s) _data).

Definition AddListener (s : MarketDataService) (_listener : Listener)
  : MarketDataService :=
  mkMarketDataService (orderBooks s) (md_listeners s ++ [_listener]) (bookDepth s).

Definition GetBookDepth (s : MarketDataService) : Z := bookDepth s.

End MarketData.

Section AggregateDepth.

(** The order in which a range-based [for] visits the elements of a
    [std::unordered_map<double,long>].  The language leaves it open; it
    may depend on the insertions that built the table (here: the stack
    the table was filled from).  Each element is visited once. *)
Variable hash_order : list Order → gmap double Z → list (double * Z).

(** [table[_price] += _quantity]: an absent key starts from zero. *)
Definition hash_add (table : gmap double Z) (_price : double) (_quantity : Z)
  : gmap double Z :=
  <[_price := long_add (default 0 (table !! _price)) _quantity]> table.

(** The first loop over a stack: the hash table of quantities. *)
Definition hash_table (stackFrom : list Order) : gmap double Z :=
  foldl (λ table b, hash_add table (order_price b) (order_quantity b)) ∅ stackFrom.

(** The second loop: one order per element of the table. *)
Definition aggregate_stack (sd : PricingSide) (stackFrom : list Order) : list Order :=
  (λ b, mkOrder b.1 b.2 sd) <$> hash_order stackFrom (hash_table stackFrom).

(** What [AggregateDepth] builds from the stored book. *)
Definition aggregate_book (book : OrderBook) : OrderBook :=
  mkOrderBook (book_product book)
    (aggregate_stack BID (GetBidStack book))
    (aggregate_stack OFFER (GetOfferStack book)).

(** The three references [AggregateDepth] declares:
    [T& _product = orderBooks[productId].GetProduct();],
    [vector<Order>& _bidStackFrom = orderBooks[productId].GetBidStack();]
    and
    [vector<Order>& _offerStackFrom = orderBooks[productId].GetOfferStack();]. *)
Definition AggregateDepth_declarations : list (constness * constness) :=
  [(NonConst, GetProduct_returns); (NonConst, GetBidStack_returns);
   (NonConst, GetOfferStack_returns)].

(** The statements of [AggregateDepth]: the book is read with
    [orderBooks[productId]], which stores an empty book when the key is
    absent, and [return OrderBook<T>(_product, _bidStackTo, _offerStackTo);]
    returns, the return type being [const OrderBook<T>&], a reference
    to the temporary it has just built. *)
Definition AggregateDepth_body (s : MarketDataService) (productId : string)
  : MarketDataService * reference OrderBook :=
  let '(s', book) := MarketData.GetData s productId in
  (s', Temporary (aggregate_book book)).

(** [AggregateDepth], a member of a class template: it is instantiated
    where it is called, and [None] stands for a program that is
    ill-formed from then on. *)
Definition AggregateDepth (s : MarketDataService) (productId : string)
  : option (MarketDataService * reference OrderBook) :=
  if well_formed AggregateDepth_declarations
  then Some (AggregateDepth_body s productId)
  else None.

End AggregateDepth.

(** *** The market data connector *)

(** The inner loop [while (getline(_lineStream, _cell, ','))]: the cells
    of a line.  [_cell] collects the characters read since the last
    comma; at the end of the line a last cell is produced only if a
    character was read for it. *)
Fixpoint split_cells (line : string) (_cell : string) : list string :=
  match line with
  | EmptyString => if decide (_cell = EmptyString) then [] else [_cell]
  | String c rest =>
      if decide (c = ","%char) then _cell :: split_cells rest EmptyString
      else split_cells rest (push_back _cell c)
  end.

(** How a [Subscribe] loop over the lines of a file ends: at the end of
    the file, or in the middle by an exception ([stod], [stol]) or by an
    access past the end of [_cells]. *)
Inductive outcome := Finished | Aborted.

(** One line of the market data file: the product identifier and the
    order it describes.  [_cells[i]] is an unchecked access. *)
Definition md_parse_line (_line : string) : option (string * Order) :=
  let _cells := split_cells _line EmptyString in
  _productId ← _cells !! 0%nat;
  _price ← _cells !! 1%nat ≫= ConvertPrice_string;
  _quantity ← _cells !! 2%nat ≫= stol;
  _cell3 ← _cells !! 3%nat;
  let _side := if decide (_cell3 = "BID"%string) then BID else OFFER in
  Some (_productId, mkOrder _price _quantity _side).

(** The locals of [MarketDataConnector::Subscribe] that live across the
    lines. *)
Record md_locals := mkLocals {
  _count : Z;
  _bidStack : list Order;
  _offerStack : list Order
}.

(** What a run of [Subscribe] did: the service it leaves, the listener
    events, the order books it passed to [OnMessage], and how it ended. *)
Record md_run := mkRun {
  run_service : MarketDataService;
  run_events : list (Listener * OrderBook);
  run_delivered : list OrderBook;
  run_outcome : outcome
}.

Fixpoint md_loop (_thread : Z) (lines : list string) (loc : md_locals)
    (s : MarketDataService) : md_run :=
  match lines with
  | [] => mkRun s [] [] Finished
  | _line :: rest =>
      match md_parse_line _line with
      | None => mkRun s [] [] Aborted
      | Some (_productId, _order) =>
          let loc :=
            match order_side _order with
            | BID => mkLocals (_count loc) (_bidStack loc ++ [_order]) (_offerStack loc)
            | OFFER => mkLocals (_count loc) (_bidStack loc) (_offerStack loc ++ [_order])
            end in
          let loc := mkLocals (long_add (_count loc) 1) (_bidStack loc) (_offerStack loc) in
          if decide (_count loc = _thread) then
            let _product := GetBond _productId in
            let _orderBook := mkOrderBook _product (_bidStack loc) (_offerStack loc) in
            let '(s, evs) := MarketData.OnMessage s _orderBook in
            let r := md_loop _thread rest (mkLocals 0 [] []) s in
            mkRun (run_service r) (evs ++ run_events r)
              (_orderBook :: run_delivered r) (run_outcome r)
          else md_loop _thread rest loc s
      end
  end.

Module MarketDataConnector.

Definition Subscribe (service : MarketDataService) (_data : list string) : md_run :=
  let _bookDepth := MarketData.GetBookDepth service in
  let _thread := int_mul _bookDepth 2 in
  md_loop _thread _data (mkLocals 0 [] []) service.

End MarketDataConnector.

(** ** pricingservice.hpp *)

Record Price := mkPrice {
  price_product : Bond;
  GetMid : double;
  GetBidOfferSpread : double
}.

(** A value-initialised price. *)
Definition Price_default : Price := mkPrice Bond_default 0%Qc 0%Qc.

Record PricingService := mkPricingService {
  prices : gmap string Price;
  pricing_listeners : list Listener
}.

Definition PricingService_new : PricingService := mkPricingService ∅ [].

Module Pricing.

Definition GetData (s : PricingService) (_key : string) : PricingService * Price :=
  match prices s !! _key with
  | Some p => (s, p)
  | None => (mkPricingService (<[_key := Price_default]> (prices s))
               (pricing_listeners s), Price_default)
  end.

Definition OnMessage (s : PricingService) (_data : Price)
  : PricingService * list (Listener * Price) :=
  (mkPricingService (<[GetProductId (price_product _data) := _data]> (prices s))
     (pricing_listeners s),
   dispatch (pricing_listeners s) _data).

Definition AddListener (s : PricingService) (_listener : Listener) : PricingService :=
  mkPricingService (prices s) (pricing_listeners s ++ [_listener]).

End Pricing.

(** One line of the price file, up to the construction of [_price]. *)
Definition pricing_parse_line (_line : string) : option (string * double * double) :=
  let _tmps := split_cells _line EmptyString in
  _productId ← _tmps !! 0%nat;
  _bid ← _tmps !! 1%nat ≫= stod;
  _offer ← _tmps !! 2%nat ≫= stod;
  Some (_productId, _bid, _offer).

(** The [Price] the connector builds from a parsed row. *)
Definition pricing_row (_productId : string) (_bid _offer : double) : Price :=
  let _mid := ((_bid + _offer) / of_Z 2)%Qc in
  let _spread := (_offer - _bid)%Qc in
  let _product := GetBond _productId in
  mkPrice _product _mid _spread.

Record pricing_run := mkPricingRun {
  prun_service : PricingService;
  prun_events : list (Listener * Price);
  prun_delivered : list Price;
  prun_outcome : outcome
}.

Module PricingConnector.

Fixpoint Subscribe (service : PricingService) (_data : list string) : pricing_run :=
  match _data with
  | [] => mkPricingRun service [] [] Finished
  | _line :: rest =>
      match pricing_parse_line _line with
      | None => mkPricingRun service [] [] Aborted
      | Some (_productId, _bid, _offer) =>
          let _price := pricing_row _productId _bid _offer in
          let '(service, evs) := Pricing.OnMessage service _price in
          let r := Subscribe service rest in
          mkPricingRun (prun_service r) (evs ++ prun_events r)
            (_price :: prun_delivered r) (prun_outcome r)
      end
  end.

End PricingConnector.

(** ** executionservice.hpp *)

Inductive OrderType := FOK | IOC | MARKET | LIMIT | STOP.

Record ExecutionOrder := mkExecutionOrder {
  eo_product : Bond;
  GetPricingSide : PricingSide;
  GetOrderId : string;
  GetOrderType : OrderType;
  eo_price : double;
  visibleQuantity : double;
  hiddenQuantity : double;
  GetParentOrderId : string;
  IsChildOrder : bool
}.

(** A value-initialised execution order. *)
Definition ExecutionOrder_default : ExecutionOrder :=
  mkExecutionOrder Bond_default BID EmptyString FOK 0%Qc 0%Qc 0%Qc EmptyString false.

Record ExecutionService := mkExecutionService {
  executionOrders : gmap string ExecutionOrder;
  exec_listeners : list Listener
}.

Definition ExecutionService_new : ExecutionService := mkExecutionService ∅ [].

Module Execution.

Definition GetData (s : ExecutionService) (_key : string)
  : ExecutionService * ExecutionOrder :=
  match executionOrders s !! _key with
  | Some o => (s, o)
  | None => (mkExecutionService (<[_key := ExecutionOrder_default]> (executionOrders s))
               (exec_listeners s), ExecutionOrder_default)
  end.

Definition OnMessage (s : ExecutionService) (_data : ExecutionOrder)
  : ExecutionService * list (Listener * ExecutionOrder) :=
  (mkExecutionService
     (<[GetProductId (eo_product _data) := _data]> (executionOrders s))
     (exec_listeners s),
   []).

Definition AddListener (s : ExecutionService) (_listener : Listener)
  : ExecutionService :=
  mkExecutionService (executionOrders s) (exec_listeners s ++ [_listener]).

Definition GetListeners (s : ExecutionService) : list Listener := exec_listeners s.

Definition ExecuteOrder (s : ExecutionService) (_executionOrder : ExecutionOrder)
  : ExecutionService * list (Listener * ExecutionOrder) :=
  let _productId := GetProductId (eo_product _executionOrder) in
  (mkExecutionService (<[_productId := _executionOrder]> (executionOrders s))
     (exec_listeners s),
   dispatch (exec_listeners s) _executionOrder).

(** The calls a client can make on the service. *)
Inductive call :=
| CallGetData (_key : string)
| CallOnMessage (_data : ExecutionOrder)
| CallAddListener (_listener : Listener)
| CallGetListeners
| CallExecuteOrder (_executionOrder : ExecutionOrder).

Definition run (c : call) (s : ExecutionService)
  : ExecutionService * list (Listener * ExecutionOrder) :=
  match c with
  | CallGetData k => ((GetData s k).1, [])
  | CallOnMessage d => OnMessage s d
  | CallAddListener l => (AddListener s l, [])
  | CallGetListeners => (s, [])
  | CallExecuteOrder o => ExecuteOrder s o
  end.

End Execution.

(** An [AlgoExecution] owns one execution order. *)
Record AlgoExecution := mkAlgoExecution {
  GetExecutionOrder : ExecutionOrder
}.

(** The constructor of [AlgoExecution]: its quantities are [long]
    parameters, which it passes to the [double] parameters of the
    constructor of [ExecutionOrder]. *)
Definition AlgoExecution_new (_product : Bond) (_side : PricingSide)
    (_orderId : string) (_orderType : OrderType) (_price : double)
    (_visibleQuantity _hiddenQuantity : Z) (_parentOrderId : string)
    (_isChildOrder : bool) : AlgoExecution :=
  mkAlgoExecution
    (mkExecutionOrder _product _side _orderId _orderType _price
       (long_to_double _visibleQuantity) (long_to_double _hiddenQuantity)
       _parentOrderId _isChildOrder).

Record AlgoExecutionService := mkAlgoExecutionService {
  algoExecutions : gmap string AlgoExecution;
  algo_listeners : list Listener;
  spread : double;
  count : Z
}.

(** The constructor: [spread = 1.0 / 128.0; count = 0]. *)
Definition AlgoExecutionService_new : AlgoExecutionService :=
  mkAlgoExecutionService ∅ [] (of_Z 1 / of_Z 128)%Qc 0.

Module AlgoExecutionSvc.

Definition OnMessage (s : AlgoExecutionService) (_data : AlgoExecution)
  : AlgoExecutionService * list (Listener * AlgoExecution) :=
  (mkAlgoExecutionService
     (<[GetProductId (eo_product (GetExecutionOrder _data)) := _data]> (algoExecutions s))
     (algo_listeners s) (spread s) (count s),
   []).

Definition AddListener (s : AlgoExecutionService) (_listener : Listener)
  : AlgoExecutionService :=
  mkAlgoExecutionService (algoExecutions s) (algo_listeners s ++ [_listener])
    (spread s) (count s).

End AlgoExecutionSvc.

(** [AlgoExecuteOrder].  [_orderId] is the identifier [GenerateId()]
    returns for this call (random, seeded from the clock). *)
Definition AlgoExecuteOrder (u : indeterminate) (s : AlgoExecutionService)
    (_orderId : string) (_orderBook : OrderBook)
  : AlgoExecutionService * list (Listener * AlgoExecution) :=
  let _product := book_product _orderBook in
  let _productId := GetProductId _product in
  let _bidOffer := GetBidOffer u _orderBook in
  let _bidOrder := GetBidOrder _bidOffer in
  let _bidPrice := order_price _bidOrder in
  let _bidQuantity := order_quantity _bidOrder in
  let _offerOrder := GetOfferOrder _bidOffer in
  let _offerPrice := order_price _offerOrder in
  let _offerQuantity := order_quantity _offerOrder in
  if decide (_offerPrice - _bidPrice ≤ spread s)%Qc then
    let '(_price, _quantity, _side) :=
      if decide (Z.rem (count s) 2 = 0) then (_bidPrice, _bidQuantity, BID)
      else if decide (Z.rem (count s) 2 = 1) then (_offerPrice, _offerQuantity, OFFER)
      else (indeterminate_price u, indeterminate_quantity u, indeterminate_side u) in
    let _algoExecution :=
      AlgoExecution_new _product _side _orderId MARKET _price _quantity 0 EmptyString false in
    (mkAlgoExecutionService (<[_productId := _algoExecution]> (algoExecutions s))
       (algo_listeners s) (spread s) (long_add (count s) 1),
     dispatch (algo_listeners s) _algoExecution)
  else (s, []).

(** [AlgoExecutionToMarketDataListener::ProcessAdd] forwards the order
    book to [AlgoExecuteOrder]. *)
Definition AlgoExecutionToMarketDataListener_ProcessAdd := AlgoExecuteOrder.

(** A sequence of order book updates, each with the identifier
    generated for it. *)
Fixpoint AlgoExecuteOrders (u : indeterminate) (s : AlgoExecutionService)
    (updates : list (string * OrderBook))
  : AlgoExecutionService * list (Listener * AlgoExecution) :=
  match updates with
  | [] => (s, [])
  | (_orderId, _orderBook) :: rest =>
      let '(s, evs) := AlgoExecuteOrder u s _orderId _orderBook in
      let '(s, evs') := AlgoExecuteOrders u s rest in
      (s, evs ++ evs')
  end.

(** [ExecutionToAlgoExecutionListener::ProcessAdd]: the order is stored
    through [OnMessage] and then executed. *)
Definition ExecutionToAlgoExecutionListener_ProcessAdd (service : ExecutionService)
    (_data : AlgoExecution) : ExecutionService * list (Listener * ExecutionOrder) :=
  let _executionOrder := GetExecutionOrder _data in
  let '(service, evs) := Execution.OnMessage service _executionOrder in
  let '(service, evs') := Execution.ExecuteOrder service _executionOrder in
  (service, evs ++ evs').

(** ** inquiryservice.hpp *)

(** The trade side of [tradebookingservice.hpp]. *)
Inductive Side := BUY | SELL.

Inductive InquiryState := RECEIVED | QUOTED | DONE | REJECTED | CUSTOMER_REJECTED.

Global Instance InquiryState_eq_dec : EqDecision InquiryState.
Proof. solve_decision. Defined.

Record Inquiry := mkInquiry {
  GetInquiryId : string;
  inq_product : Bond;
  GetSide : Side;
  inq_quantity : Z;
  inq_price : double;
  GetState : InquiryState
}.

(** A value-initialised inquiry. *)
Definition Inquiry_default : Inquiry :=
  mkInquiry EmptyString Bond_default BUY 0 0%Qc RECEIVED.

Definition SetState (i : Inquiry) (_state : InquiryState) : Inquiry :=
  mkInquiry (GetInquiryId i) (inq_product i) (GetSide i) (inq_quantity i)
    (inq_price i) _state.


Record InquiryService := mkInquiryService {
  inquiries : gmap string Inquiry;
  inq_listeners : list Listener
}.

Definition InquiryService_new : InquiryService := mkInquiryService ∅ [].

(** What a call that takes the inquiry by reference leaves behind: the
    service, the caller's inquiry as the call modified it, and the
    listener events. *)
Record inq_result := mkInqResult {
  res_service : InquiryService;
  res_data : Inquiry;
  res_events : list (Listener * Inquiry)
}.

Module InquirySvc.

Definition GetData (s : InquiryService) (_key : string) : InquiryService * Inquiry :=
  match inquiries s !! _key with
  | Some i => (s, i)
  | None => (mkInquiryService (<[_key := Inquiry_default]> (inquiries s))
               (inq_listeners s), Inquiry_default)
  end.

Definition AddListener (s : InquiryService) (_listener : Listener) : InquiryService :=
  mkInquiryService (inquiries s) (inq_listeners s ++ [_listener]).

Definition store (s : InquiryService) (_data : Inquiry) : InquiryService :=
  mkInquiryService (<[GetInquiryId _data := _data]> (inquiries s)) (inq_listeners s).

Section Connector.

(** [InquiryService::OnMessage], which the connector calls back. *)
Variable OnMessage : InquiryService → Inquiry → option inq_result.

(** [InquiryConnector::Subscribe(Inquiry&)]. *)
Definition Subscribe_inquiry (service : InquiryService) (_data : Inquiry)
  : option inq_result :=
  OnMessage service _data.

(** [InquiryConnector::Publish]. *)
Definition Publish (service : InquiryService) (_data : Inquiry)
  : option inq_result :=
  let _state := GetState _data in
  if decide (_state = RECEIVED) then
    let _data := SetState _data QUOTED in
    Subscribe_inquiry service _data
  else Some (mkInqResult service _data []).

End Connector.

(** [InquiryService::OnMessage].  The service and its connector call
    each other; [depth] bounds the nesting of the calls, and [None]
    means that the bound was reached. *)
Fixpoint OnMessage (depth : nat) (s : InquiryService) (_data : Inquiry)
  : option inq_result :=
  match depth with
  | O => None
  | S depth =>
      match GetState _data with
      | RECEIVED =>
          let s := store s _data in
          Publish (OnMessage depth) s _data
      | QUOTED =>
          let _data := SetState _data DONE in
          let s := store s _data in
          Some (mkInqResult s _data (dispatch (inq_listeners s) _data))
      | DONE | REJECTED | CUSTOMER_REJECTED =>
          Some (mkInqResult s _data [])
      end
  end.


Definition RejectInquiry (s : InquiryService) (_inquiryId : string)
  : InquiryService :=
  let '(s, _inquiry) := GetData s _inquiryId in
  let _inquiry := SetState _inquiry REJECTED in
  mkInquiryService (<[_inquiryId := _inquiry]> (inquiries s)) (inq_listeners s).

End InquirySvc.

(** ** More of the headers *)

(** *** functions.hpp: the random numbers and the identifiers *)

(** [a - b] and [a * b] on [long]. *)
Definition long_sub (a b : Z) : Z := wrap_long (a - b).
Definition long_mul (a b : Z) : Z := wrap_long (a * b).

(** The conversion [int i = x] of a [double]: the value is truncated
    towards zero, and the conversion is undefined when the result does
    not fit. *)
Definition truncate (x : double) : Z :=
  if decide (0 ≤ x)%Qc then floor x else - floor (- x)%Qc.

(** The constants of [GenerateUniform]: [m], [a], [q = m / a] and
    [r = m % a]. *)
Definition uniform_m : Z := 2147483647.
Definition uniform_a : Z := 39373.
Definition uniform_q : Z := Z.quot uniform_m uniform_a.
Definition uniform_r : Z := Z.rem uniform_m uniform_a.

(** The body of the loop of [GenerateUniform]: the next seed. *)
Definition uniform_next (seed : Z) : Z :=
  let k := Z.quot seed uniform_q in
  let seed :=
    long_sub (long_mul uniform_a (long_sub seed (long_mul k uniform_q)))
      (long_mul k uniform_r) in
  if decide (seed < 0) then long_add seed uniform_m else seed.

Fixpoint uniform_loop (n : nat) (seed : Z) : list double :=
  match n with
  | O => []
  | S n =>
      let seed := uniform_next seed in
      (of_Z seed / of_Z uniform_m)%Qc :: uniform_loop n seed
  end.

(** [GenerateUniform(N, seed)].  [now] is the value of [time(0)], which
    replaces a seed of zero. *)
Definition GenerateUniform (now : Z) (N seed : Z) : list double :=
  let seed := if decide (seed = 0) then now else seed in
  let seed := Z.rem seed uniform_m in
  uniform_loop (Z.to_nat N) seed.

(** The alphabet of [GenerateId]. *)
Definition _base : string := "0123456789QWERTYUIOPASDFGHJKLZXCVBNM".

(** [_base[i]]: an unchecked access.  The position just after the last
    character holds the null character; any other position outside the
    text is undefined. *)
Definition base_at (i : Z) : option ascii :=
  if decide (i = Z.of_nat (String.length _base)) then Some Ascii.zero
  else if decide (0 ≤ i) then String.get (Z.to_nat i) _base
  else None.

(** One iteration of the loop of [GenerateId], on the random number [r]. *)
Definition id_step (_id : option string) (r : double) : option string :=
  _id ← _id;
  i ← to_int (truncate (r * of_Z 36)%Qc);
  c ← base_at i;
  Some (push_back _id c).

(** [GenerateId()].  [ms] is the value of [GetMilliseconds()], the
    milliseconds of the clock, and [now] the value of [time(0)]. *)
Definition GenerateId (now ms : Z) : option string :=
  let _randoms := GenerateUniform now 12 ms in
  foldl id_step (Some EmptyString) _randoms.

(** [GetPV01Value]: a chain of independent tests over the value zero.
    The values are the decimal literals of the source. *)
Definition GetPV01Value (_cusip : string) : double :=
  let _pv01 := 0%Qc in
  let _pv01 := if decide (_cusip = "9128283H1"%string) then decimal 1948992 100000000 else _pv01 in
  let _pv01 := if decide (_cusip = "9128283L2"%string) then decimal 2865304 100000000 else _pv01 in
  let _pv01 := if decide (_cusip = "912828M80"%string) then decimal 4581119 100000000 else _pv01 in
  let _pv01 := if decide (_cusip = "9128283J7"%string) then decimal 6127718 100000000 else _pv01 in
  let _pv01 := if decide (_cusip = "9128283F5"%string) then decimal 8161449 100000000 else _pv01 in
  let _pv01 := if decide (_cusip = "912810RZ3"%string) then decimal 15013155 100000000 else _pv01 in
  _pv01.

(** *** marketdataservice.hpp: the best bid and offer of a product *)

(** [GetBestBidOffer]: the book is read with [orderBooks[productId]],
    and [return orderBooks[productId].GetBidOffer();] returns, the
    return type being [const BidOffer&], a reference to the temporary
    [GetBidOffer()] returns by value. *)
Definition GetBestBidOffer (u : indeterminate) (s : MarketDataService)
    (productId : string) : MarketDataService * reference BidOffer :=
  let '(s, book) := MarketData.GetData s productId in
  (s, Temporary (GetBidOffer u book)).

(** *** inquiryservice.hpp: the text of an inquiry and the file connector *)

(** [Inquiry::ToStrings]. *)
Definition Inquiry_ToStrings (i : Inquiry) : option (list string) :=
  let _inquiryId := GetInquiryId i in
  let _product := GetProductId (inq_product i) in
  let _side := match GetSide i with BUY => "BUY" | SELL => "SELL" end%string in
  let _quantity := to_string (inq_quantity i) in
  _price ← ConvertPrice_double (inq_price i);
  let _state :=
    match GetState i with
    | RECEIVED => "RECEIVED"
    | QUOTED => "QUOTED"
    | DONE => "DONE"
    | REJECTED => "REJECTED"
    | CUSTOMER_REJECTED => "CUSTOMER_REJECTED"
    end%string in
  Some [_inquiryId; _product; _side; _quantity; _price; _state].

(** The cells of one line of the inquiry file, up to the construction
    of [_inquiry].  [_side] and [_state] are default-initialised locals:
    when the cell is none of the expected words they keep an
    indeterminate value, [u_side] and [u_state] here. *)
Definition inq_parse_cells (u_side : Side) (u_state : InquiryState)
    (_cells : list string) : option Inquiry :=
  _inquiryId ← _cells !! 0%nat;
  _productId ← _cells !! 1%nat;
  _cell2 ← _cells !! 2%nat;
  let _side :=
    if decide (_cell2 = "BUY"%string) then BUY
    else if decide (_cell2 = "SELL"%string) then SELL
    else u_side in
  _quantity ← _cells !! 3%nat ≫= stol;
  _price ← _cells !! 4%nat ≫= ConvertPrice_string;
  _cell5 ← _cells !! 5%nat;
  let _state :=
    if decide (_cell5 = "RECEIVED"%string) then RECEIVED
    else if decide (_cell5 = "QUOTED"%string) then QUOTED
    else if decide (_cell5 = "DONE"%string) then DONE
    else if decide (_cell5 = "REJECTED"%string) then REJECTED
    else if decide (_cell5 = "CUSTOMER_REJECTED"%string) then CUSTOMER_REJECTED
    else u_state in
  let _product := GetBond _productId in
  Some (mkInquiry _inquiryId _product _side _quantity _price _state).

Definition inq_parse_line (u_side : Side) (u_state : InquiryState)
    (_line : string) : option Inquiry :=
  inq_parse_cells u_side u_state (split_cells _line EmptyString).

(** What a run of [InquiryConnector::Subscribe(ifstream&)] did. *)
Record inq_run := mkInqRun {
  irun_service : InquiryService;
  irun_events : list (Listener * Inquiry);
  irun_outcome : outcome
}.

Module InquiryConnector.

(** [Subscribe(ifstream&)]: every line is handed to [OnMessage].
    [depth] bounds the nesting of the calls between the service and the
    connector; [None] means that the bound was reached. *)
Fixpoint Subscribe (depth : nat) (u_side : Side) (u_state : InquiryState)
    (service : InquiryService) (_data : list string) : option inq_run :=
  match _data with
  | [] => Some (mkInqRun service [] Finished)
  | _line :: rest =>
      match inq_parse_line u_side u_state _line with
      | None => Some (mkInqRun service [] Aborted)
      | Some _inquiry =>
          res ← InquirySvc.OnMessage depth service _inquiry;
          r ← Subscribe depth u_side u_state (res_service res) rest;
          Some (mkInqRun (irun_service r) (res_events res ++ irun_events r)
                  (irun_outcome r))
      end
  end.

End InquiryConnector.

(** * Notions used in the statements *)

(** After the dash the whole points are not touched any more. *)
Definition with_whole (s100 : string) (st : split) : split :=
  mkSplit (split_count st) s100 (_stringPrice32 st) (_stringPrice8 st).

(** The text of the 32nds and of the eighths, as [ConvertPrice(double)]
    writes them for [_doublePrice256 = r]. *)
Definition fraction_text (r : Z) : string :=
  String.append
    (if decide (r / 8 < 10) then String.append "0" (to_string (r / 8))
     else to_string (r / 8))
    (if decide (Z.rem r 8 = 4) then "+"%string else to_string (Z.rem r 8)).

(** Reading [fraction_text r] back after the dash gives [r / 8] 32nds
    and [r mod 8] eighths. *)
Definition fraction_reads_back (r : Z) : bool :=
  let st := split_loop (fraction_text r) (mkSplit 1 EmptyString EmptyString EmptyString) in
  match digits_prefix (_stringPrice32 st), digits_prefix (_stringPrice8 st) with
  | (u, EmptyString), (v, EmptyString) =>
      negb (no_digit u) && negb (no_digit v)
      && bool_decide (Z.of_uint u = r / 8) && bool_decide (Z.of_uint v = r `mod` 8)
  | _, _ => false
  end.

(** The quantities of the orders of a stack that are at the price [p],
    and their sum. *)
Definition quantities_at (p : double) (stack : list Order) : list Z :=
  order_quantity <$> filter (λ o, order_price o = p) stack.

Definition Zsum (l : list Z) : Z := foldr Z.add 0 l.

(** What [AggregateDepth] guarantees about one stack of its result. *)
Definition aggregated (sd : PricingSide) (stackFrom stackTo : list Order) : Prop :=
  NoDup (order_price <$> stackTo)
  ∧ ∀ o, o ∈ stackTo →
      order_side o = sd
      ∧ order_price o ∈ order_price <$> stackFrom
      ∧ order_quantity o = wrap_long (Zsum (quantities_at (order_price o) stackFrom)).



(** The order a cross takes, by the parity of the counter. *)
Definition crossed (c : Z) (bo : BidOffer) : Order :=
  if Z.even c then GetBidOrder bo else GetOfferOrder bo.

Definition crossed_side (c : Z) : PricingSide := if Z.even c then BID else OFFER.

Definition bids_of (rows : list (string * Order)) : list Order :=
  filter (λ o, order_side o = BID) (rows.*2).

Definition offers_of (rows : list (string * Order)) : list Order :=
  filter (λ o, order_side o = OFFER) (rows.*2).

(** The order book made of a group of rows: the bids and the offers of
    the group, in the order of the file, for the product the last row
    of the group names. *)
Definition book_of_group (group : list (string * Order)) : OrderBook :=
  mkOrderBook (GetBond (default EmptyString (last (group.*1))))
    (bids_of group) (offers_of group).

(** The locals of the connector after it has read the rows [pending]
    since the last order book. *)
Definition locals_of (pending : list (string * Order)) : md_locals :=
  mkLocals (Z.of_nat (length pending)) (bids_of pending) (offers_of pending).

(** The order books a file delivers, row by row: [pending] are the rows
    read since the last order book, [n] the size of a group. *)
Fixpoint deliver (n : nat) (pending rows : list (string * Order)) : list OrderBook :=
  match rows with
  | [] => []
  | row :: rows =>
      let pending := pending ++ [row] in
      if decide (length pending = n) then book_of_group pending :: deliver n [] rows
      else deliver n pending rows
  end.

(** The service after the order books [books] have reached [OnMessage]. *)
Definition after_books (s : MarketDataService) (books : list OrderBook)
  : MarketDataService :=
  foldl (λ s b, (MarketData.OnMessage s b).1) s books.

(** ** Concrete inputs *)

(** Indeterminate values, fixed for the examples. *)
Definition indeterminate_example : indeterminate :=
  mkIndeterminate (mkOrder 0%Qc 0 BID) (mkOrder 0%Qc 0 OFFER) BID 0%Qc 0.

(** A book with bid 99-31+ and offer 100-00+ (a 32nd apart), and the
    same book with the offer tightened to 1/256 above the bid. *)
Definition wide_book : OrderBook :=
  mkOrderBook (GetBond "912828M80")
    [mkOrder (decimal 25596 256) 1000000 BID; mkOrder (decimal 25590 256) 2000000 BID]
    [mkOrder (decimal 25604 256) 3000000 OFFER; mkOrder (decimal 25610 256) 4000000 OFFER].

Definition tight_book : OrderBook :=
  mkOrderBook (GetBond "912828M80")
    [mkOrder (decimal 25596 256) 1000000 BID; mkOrder (decimal 25590 256) 2000000 BID]
    [mkOrder (decimal 25597 256) 3000000 OFFER; mkOrder (decimal 25610 256) 4000000 OFFER].


(** An algo execution service with one listener, before its first cross. *)
Definition algo_example : AlgoExecutionService :=
  AlgoExecutionSvc.AddListener AlgoExecutionService_new 1%nat.

(** Bids [(100, 10); (100, 15); (99.5, 20)] and one offer. *)
Definition duplicate_book : OrderBook :=
  mkOrderBook (GetBond "9128283H1")
    [mkOrder (of_Z 100) 10 BID; mkOrder (of_Z 100) 15 BID; mkOrder (decimal 199 2) 20 BID]
    [mkOrder (of_Z 101) 5 OFFER].

(** The iteration order of the hash table taken to be the order of
    [map_to_list]. *)
Definition hash_order_example : list Order → gmap double Z → list (double * Z) :=
  λ _ m, map_to_list m.

(** The inquiry [(I1, US5Y, BUY, 1000000, 100-00, RECEIVED)]. *)
Definition inquiry_example : Inquiry :=
  mkInquiry "I1" (GetBond "912828M80") BUY 1000000 (of_Z 100) RECEIVED.

Definition inquiry_service_example : InquiryService :=
  InquirySvc.AddListener (InquirySvc.AddListener InquiryService_new 1%nat) 2%nat.

(** A market data file of one full group (five bids, five offers) and
    two trailing rows. *)
Definition md_file_example : list string :=
  ["9128283H1,99-000,1000000,BID"; "9128283H1,99-001,2000000,BID";
   "9128283H1,99-002,3000000,BID"; "9128283H1,99-003,4000000,BID";
   "9128283H1,99-00+,5000000,BID"; "9128283H1,99-010,1000000,OFFER";
   "9128283H1,99-011,2000000,OFFER"; "9128283H1,99-012,3000000,OFFER";
   "9128283H1,99-013,4000000,OFFER"; "9128283H1,99-01+,5000000,OFFER";
   "9128283L2,99-000,1000000,BID"; "9128283L2,99-001,2000000,BID"]%string.

(** A market data file of ten rows, the third of which has a price
    without its 32nds: [ConvertPrice] then calls [stod] on an empty
    string, which throws. *)
Definition md_file_malformed : list string :=
  ["9128283H1,99-000,1000000,BID"; "9128283H1,99-001,2000000,BID";
   "9128283H1,99,3000000,BID"; "9128283H1,99-003,4000000,BID";
   "9128283H1,99-00+,5000000,BID"; "9128283H1,99-010,1000000,OFFER";
   "9128283H1,99-011,2000000,OFFER"; "9128283H1,99-012,3000000,OFFER";
   "9128283H1,99-013,4000000,OFFER"; "9128283H1,99-01+,5000000,OFFER"]%string.

(** A pricing service with one listener. *)
Definition pricing_service_example : PricingService :=
  Pricing.AddListener PricingService_new 1%nat.


(** ** Notions used in the further statements *)

(** The multiplicative congruential generator [GenerateUniform]
    implements: [x ↦ a * x mod m], and its first [n] iterates. *)
Definition lehmer (x : Z) : Z := (uniform_a * x) `mod` uniform_m.

Fixpoint lehmer_seq (n : nat) (x : Z) : list Z :=
  match n with
  | O => []
  | S n => lehmer x :: lehmer_seq n (lehmer x)
  end.

(** A text without the dash that separates the whole points from the
    fraction. *)
Fixpoint no_dash (s : string) : bool :=
  match s with
  | EmptyString => true
  | String c rest => if decide (c = "-"%char) then false else no_dash rest
  end.

(** The service after [orderBooks[key]] has created the entry of an
    absent key. *)
Definition with_empty_book (s : MarketDataService) (key : string)
  : MarketDataService :=
  mkMarketDataService (<[key := OrderBook_default]> (orderBooks s))
    (md_listeners s) (bookDepth s).

(** The rows of a file up to its first line that cannot be read, and
    whether every line can be read. *)
Fixpoint parsed_prefix {A : Type} (parse : string → option A)
    (lines : list string) : list A :=
  match lines with
  | [] => []
  | _line :: rest =>
      match parse _line with
      | Some row => row :: parsed_prefix parse rest
      | None => []
      end
  end.

Definition all_parse {A : Type} (parse : string → option A)
    (lines : list string) : bool :=
  forallb (λ _line, bool_decide (is_Some (parse _line))) lines.

(** How a connector that reads [lines] with [parse] ends. *)
Definition outcome_of {A : Type} (parse : string → option A)
    (lines : list string) : outcome :=
  if all_parse parse lines then Finished else Aborted.

(** The calls of the listeners for a list of delivered values. *)
Definition dispatch_all {V : Type} (listeners : list Listener) (vs : list V)
  : list (Listener * V) :=
  vs ≫= dispatch listeners.

(** The last value of a list of deliveries that was stored under [key],
    or else the value [old] held before. *)
Definition last_stored {V : Type} (id : V → string) (key : string)
    (delivered : list V) (old : option V) : option V :=
  match last (filter (λ v, id v = key) delivered) with
  | Some v => Some v
  | None => old
  end.

(** The table of a service after the values [delivered] have been
    stored in it, each under its identifier. *)
Definition stored_all {V : Type} (id : V → string) (table : gmap string V)
    (delivered : list V) : gmap string V :=
  foldl (λ table v, <[id v := v]> table) table delivered.

(** An inquiry in a state the service acts on. *)
Definition open_state (i : Inquiry) : Prop :=
  GetState i = RECEIVED ∨ GetState i = QUOTED.

Global Instance open_state_dec i : Decision (open_state i).
Proof. unfold open_state. apply _. Defined.

(** What [OnMessage] does with an inquiry once its nested calls have
    returned: an inquiry in an open state is marked done, stored and
    sent to the listeners; any other inquiry is dropped. *)
Definition ingest (s : InquiryService) (i : Inquiry) : inq_result :=
  if decide (open_state i) then
    mkInqResult (InquirySvc.store s (SetState i DONE)) (SetState i DONE)
      (dispatch (inq_listeners s) (SetState i DONE))
  else mkInqResult s i [].

(** The inquiries a list of rows leaves in the service: the rows in an
    open state, marked done. *)
Definition done_of_rows (rows : list Inquiry) : list Inquiry :=
  (λ i, SetState i DONE) <$> filter open_state rows.

(** A line whose cell [n] is there and has no dash: a price cell on
    which [ConvertPrice] makes [stod] throw, all the earlier cells
    being there too. *)
Definition no_dash_cell (n : nat) (_line : string) : Prop :=
  ∃ cell, split_cells _line EmptyString !! n = Some cell ∧ no_dash cell = true.

(** A line whose cell [n] is there and empty: a number cell on which
    [stod] throws. *)
Definition empty_cell (n : nat) (_line : string) : Prop :=
  split_cells _line EmptyString !! n = Some EmptyString.

(** What follows the lines a connector reads: nothing, or a line on
    which the connector throws and then any lines. *)
Definition stops_at (throws : string → Prop) (tail : list string) : Prop :=
  tail = [] ∨ ∃ bad rest, tail = bad :: rest ∧ throws bad.

(** How the run ends then. *)
Definition ends (tail : list string) : outcome :=
  match tail with [] => Finished | _ => Aborted end.

(** A text without a comma. *)
Fixpoint no_comma (s : string) : bool :=
  match s with
  | EmptyString => true
  | String c rest => if decide (c = ","%char) then false else no_comma rest
  end.

(** ** More concrete inputs *)

(** The ten rows of the first group of [md_file_example], and a tail
    whose first row has a price without a dash. *)
Definition md_good_example : list string := take 10 md_file_example.

Definition md_tail_example : list string :=
  ["9128283H1,99,3000000,BID"; "9128283H1,99-000,1000000,BID"]%string.

(** Two rows of a price file for one product, and a tail whose first
    row has an empty bid. *)
Definition pricing_good_example : list string :=
  ["9128283H1,99.5,100.5"; "9128283H1,99,101"]%string.

Definition pricing_tail_example : list string :=
  ["9128283H1,,100"; "9128283L2,99,101"]%string.

(** Two rows of an inquiry file, one received and one already done,
    and a tail whose first row has a price without a dash. *)
Definition inquiry_good_example : list string :=
  ["I1,912828M80,BUY,1000000,100-000,RECEIVED";
   "I2,912828M80,SELL,2000000,99-16+,DONE"]%string.

Definition inquiry_tail_example : list string :=
  ["I3,912828M80,BUY,1000000,100,RECEIVED"]%string.

(** Three order book updates: a cross, no cross, a cross. *)
Definition updates_example : list (string * OrderBook) :=
  [("ID0000000001"%string, tight_book); ("ID0000000002"%string, wide_book);
   ("ID0000000003"%string, tight_book)].

(** * Properties *)

(** ** Machine numbers *)

Section MachineFacts.

Lemma wrap_long_id z : in_long z → wrap_long z = z.
Proof.
  unfold in_long, LONG_MIN, LONG_MAX, wrap_long, wrap. intros H.
  rewrite Z.mod_small; lia.
Qed.

Lemma wrap_int_id z : in_int z → wrap_int z = z.
Proof.
  unfold in_int, INT_MIN, INT_MAX, wrap_int, wrap. intros H.
  rewrite Z.mod_small; lia.
Qed.

Lemma wrap_long_range z : in_long (wrap_long z).
Proof.
  unfold in_long, LONG_MIN, LONG_MAX, wrap_long, wrap.
  pose proof (Z.mod_pos_bound (z + 2 ^ (64 - 1)) (2 ^ 64)). lia.
Qed.

(** Wrapping an intermediate sum does not change the wrapped total. *)
Lemma long_add_wrap_l a b : long_add (wrap_long a) b = wrap_long (a + b).
Proof.
  unfold long_add, wrap_long, wrap. f_equal.
  replace (((a + 2 ^ (64 - 1)) `mod` 2 ^ 64 - 2 ^ (64 - 1) + b + 2 ^ (64 - 1)))
    with ((a + 2 ^ (64 - 1)) `mod` 2 ^ 64 + b) by lia.
  rewrite Zplus_mod_idemp_l. f_equal. lia.
Qed.

Lemma to_int_Some z : in_int z → to_int z = Some z.
Proof. unfold to_int, in_int. intros H. by rewrite decide_True. Qed.

Lemma of_Z_add a b : (of_Z (a + b) = of_Z a + of_Z b)%Qc.
Proof.
  apply Qc_is_canon. unfold of_Z. simpl.
  rewrite !Qred_correct. by rewrite inject_Z_plus.
Qed.

Lemma of_Z_mul a b : (of_Z (a * b) = of_Z a * of_Z b)%Qc.
Proof.
  apply Qc_is_canon. unfold of_Z. simpl.
  rewrite !Qred_correct. by rewrite inject_Z_mult.
Qed.

Lemma of_Z_nonzero z : z ≠ 0 → of_Z z ≠ 0%Qc.
Proof.
  intros Hz H. apply (f_equal this) in H. unfold of_Z in H. simpl in H.
  assert (Hq : (inject_Z z == 0)%Q).
  { rewrite <- (Qred_correct (inject_Z z)), H. reflexivity. }
  unfold Qeq in Hq. simpl in Hq. lia.
Qed.

Lemma floor_of_Z z : floor (of_Z z) = z.
Proof.
  unfold floor, of_Z. simpl. rewrite Qred_correct. apply Qfloor_Z.
Qed.

(** [floor] of a quotient of integers is the integer quotient. *)
Lemma floor_div n (m : positive) : floor (of_Z n / of_Z (Z.pos m))%Qc = n / Z.pos m.
Proof.
  unfold floor, of_Z, Qcdiv, Qcmult, Qcinv. simpl.
  rewrite !Qred_correct.
  transitivity (Qfloor (n # m)); [|reflexivity].
  apply Qfloor_comp. rewrite (Qmake_Qdiv n m). reflexivity.
Qed.

Lemma digits_prefix_string_of_uint u :
  digits_prefix (NilEmpty.string_of_uint u) = (u, EmptyString).
Proof. induction u; simpl; rewrite ?IHu; reflexivity. Qed.

(** The decimal numeral of a non-negative integer. *)
Lemma to_string_nonneg n :
  0 ≤ n → ∃ u, to_string n = NilEmpty.string_of_uint u
               ∧ no_digit u = false ∧ Z.of_uint u = n.
Proof.
  intros Hn. unfold to_string. destruct n as [|p|p]; [| |lia].
  - exists (D0 Nil). done.
  - exists (Pos.to_uint p). simpl. split_and!.
    + pose proof (Unsigned.to_uint_nonnil p) as Hnil.
      by destruct (Pos.to_uint p).
    + pose proof (Unsigned.to_uint_nonnil p) as Hnil.
      by destruct (Pos.to_uint p).
    + pose proof (DecimalZ.of_to (Z.pos p)) as H. simpl in H. exact H.
Qed.

Lemma stod_string_of_uint u :
  no_digit u = false →
  stod (NilEmpty.string_of_uint u) = Some (of_Z (Z.of_uint u)).
Proof.
  intros Hu. unfold stod. rewrite digits_prefix_string_of_uint. simpl.
  by rewrite Hu.
Qed.

Lemma stod_to_string n : 0 ≤ n → stod (to_string n) = Some (of_Z n).
Proof.
  intros Hn. destruct (to_string_nonneg n Hn) as (u & -> & Hu & <-).
  by apply stod_string_of_uint.
Qed.

End MachineFacts.

(** ** The price converter *)

Section ConvertPrice.

Lemma append_cons (ch : ascii) (a b : string) :
  String.append (String ch a) b = String ch (String.append a b).
Proof. reflexivity. Qed.

Lemma append_empty_l (a : string) : String.append EmptyString a = a.
Proof. reflexivity. Qed.

Lemma append_assoc (a b c : string) :
  String.append (String.append a b) c = String.append a (String.append b c).
Proof.
  induction a as [|ch a IH]; [done|].
  by rewrite !append_cons, IH.
Qed.

Lemma append_empty_r (a : string) : String.append a EmptyString = a.
Proof. induction a as [|ch a IH]; [done|]. by rewrite append_cons, IH. Qed.

Lemma push_back_append (a : string) (c : ascii) (t : string) :
  String.append (push_back a c) t = String.append a (String c t).
Proof. unfold push_back. by rewrite append_assoc. Qed.

(** The whole points: while no dash has been read, the digits of a
    numeral go to [_stringPrice100]. *)
Lemma split_loop_whole u t acc :
  split_loop (String.append (NilEmpty.string_of_uint u) t) (mkSplit 0 acc EmptyString EmptyString)
  = split_loop t (mkSplit 0 (String.append acc (NilEmpty.string_of_uint u)) EmptyString EmptyString).
Proof.
  revert acc. induction u; intros acc; cbn [NilEmpty.string_of_uint];
    rewrite ?append_empty_l, ?append_empty_r, ?append_cons; [done | ..];
    cbn [split_loop]; rewrite <- push_back_append; apply IHu.
Qed.

Lemma split_loop_frame t c s100 s32 s8 :
  1 ≤ c → c + Z.of_nat (String.length t) ≤ INT_MAX →
  split_loop t (mkSplit c s100 s32 s8)
  = with_whole s100 (split_loop t (mkSplit c EmptyString s32 s8)).
Proof.
  revert c s32 s8. induction t as [|ch t IH]; intros c s32 s8 Hc Hlen; [done|].
  cbn [String.length] in Hlen. cbn [split_loop split_step].
  assert (Hadd : int_add c 1 = c + 1).
  { apply wrap_int_id. unfold in_int, INT_MIN, INT_MAX in *. lia. }
  repeat case_decide; rewrite ?Hadd; try lia; apply IH; lia.
Qed.

Lemma fraction_reads_back_all r :
  0 ≤ r < 256 → fraction_reads_back r = true.
Proof.
  intros Hr.
  assert (H : forallb fraction_reads_back (seqZ 0 256) = true) by (vm_compute; reflexivity).
  rewrite forallb_forall in H. apply H, list_elem_of_In, elem_of_seqZ. lia.
Qed.

End ConvertPrice.

Section RoundTrip.

Lemma fraction_text_length r :
  0 ≤ r < 256 → String.length (fraction_text r) = 3%nat.
Proof.
  intros Hr.
  assert (H : forallb (λ r, bool_decide (String.length (fraction_text r) = 3%nat))
                (seqZ 0 256) = true) by (vm_compute; reflexivity).
  rewrite forallb_forall in H.
  eapply bool_decide_eq_true_1, H, list_elem_of_In, elem_of_seqZ. lia.
Qed.

Lemma stod_digits s u :
  digits_prefix s = (u, EmptyString) → no_digit u = false →
  stod s = Some (of_Z (Z.of_uint u)).
Proof. intros Hs Hu. unfold stod. rewrite Hs. simpl. by rewrite Hu. Qed.

(** The arithmetic of the conversion, on a price of [k] 256ths. *)
Lemma decimal_256_split k :
  ((decimal k 256 - of_Z (k / 256)) * of_Z 256 = of_Z (k `mod` 256))%Qc.
Proof.
  unfold decimal.
  rewrite (Z.div_mod k 256) at 1 by lia.
  rewrite of_Z_add, of_Z_mul.
  pose proof (of_Z_nonzero 256 ltac:(lia)).
  field. done.
Qed.

Lemma decimal_256_join k :
  (of_Z (k / 256) + of_Z (k `mod` 256 / 8) * 1 / of_Z 32
   + of_Z ((k `mod` 256) `mod` 8) * 1 / of_Z 256 = decimal k 256)%Qc.
Proof.
  unfold decimal.
  rewrite (Z.div_mod k 256) at 4 by lia.
  rewrite (Z.div_mod (k `mod` 256) 8) at 3 by lia.
  rewrite !of_Z_add, !of_Z_mul.
  replace (of_Z 256) with (of_Z 8 * of_Z 32)%Qc by (by rewrite <- of_Z_mul).
  pose proof (of_Z_nonzero 8 ltac:(lia)).
  pose proof (of_Z_nonzero 32 ltac:(lia)).
  field. done.
Qed.

(** C2, as amended.  For every price that is a non-negative multiple
    [k/256] of 1/256 and whose whole part fits an [int], converting
    the price to the text [AAA-BBC] succeeds and parsing that text
    gives the price back exactly. *)
Theorem ConvertPrice_round_trip_in_range (k : Z) :
  0 ≤ k → k / 256 ≤ INT_MAX →
  ConvertPrice_double (decimal k 256) ≫= ConvertPrice_string
  = Some (decimal k 256).
Proof.
  intros Hk Hmax.
  pose proof (Z.div_pos k 256 Hk ltac:(lia)) as Ha.
  pose proof (Z.mod_pos_bound k 256 ltac:(lia)) as Hr.
  pose proof (Z.div_pos (k `mod` 256) 8 ltac:(lia) ltac:(lia)) as Hd.
  assert (Hd' : k `mod` 256 / 8 < 32) by (apply Z.div_lt_upper_bound; lia).
  unfold ConvertPrice_double.
  change (floor (decimal k 256)) with (floor (of_Z k / of_Z (Z.pos 256))%Qc).
  rewrite floor_div, to_int_Some by (unfold in_int, INT_MIN, INT_MAX in *; lia).
  cbn [mbind option_bind].
  rewrite decimal_256_split, floor_of_Z, to_int_Some
    by (unfold in_int, INT_MIN, INT_MAX; lia).
  cbn [mbind option_bind].
  change (of_Z 8) with (of_Z (Z.pos 8)).
  rewrite floor_div, to_int_Some by (unfold in_int, INT_MIN, INT_MAX; lia).
  cbn [mbind option_bind].
  rewrite !append_assoc. fold (fraction_text (k `mod` 256)).
  destruct (to_string_nonneg _ Ha) as (u & -> & Hu & Hval).
  unfold ConvertPrice_string.
  rewrite split_loop_whole. rewrite append_cons. cbn [split_loop].
  change (split_step "-" _) with
    (mkSplit 1 (String.append EmptyString (NilEmpty.string_of_uint u)) EmptyString EmptyString).
  rewrite !append_empty_l.
  rewrite split_loop_frame
    by (rewrite ?fraction_text_length by done; unfold INT_MAX; lia).
  pose proof (fraction_reads_back_all _ Hr) as Hback.
  unfold fraction_reads_back in Hback.
  destruct (split_loop _ (mkSplit 1 EmptyString EmptyString EmptyString)) as [c s100 s32 s8].
  cbn [with_whole _stringPrice100 _stringPrice32 _stringPrice8 split_count] in *.
  destruct (digits_prefix s32) as [u32 [|]] eqn:H32; [|done].
  destruct (digits_prefix s8) as [u8 [|]] eqn:H8; [|done].
  apply andb_prop in Hback as [Hback E8]. apply andb_prop in Hback as [Hback E32].
  apply andb_prop in Hback as [N32 N8].
  apply bool_decide_eq_true in E8, E32. apply negb_true_iff in N32, N8.
  rewrite (stod_string_of_uint u Hu), (stod_digits _ _ H32 N32), (stod_digits _ _ H8 N8).
  cbn [mbind option_bind]. rewrite Hval, E32, E8. f_equal.
  apply decimal_256_join.
Qed.

End RoundTrip.

(** ** Depth aggregation *)

Section AggregateDepthFacts.

Variable hash_order : list Order → gmap double Z → list (double * Z).
Hypothesis hash_order_perm : ∀ h m, hash_order h m ≡ₚ map_to_list m.

Lemma quantities_at_cons p o stack :
  quantities_at p (o :: stack)
  = if decide (order_price o = p) then order_quantity o :: quantities_at p stack
    else quantities_at p stack.
Proof. unfold quantities_at. rewrite filter_cons. by case_decide. Qed.

(** The table after the first loop, started from any table. *)
Lemma hash_table_from_lookup stack : ∀ (table : gmap double Z) p,
  foldl (λ table b, hash_add table (order_price b) (order_quantity b)) table stack !! p
  = if decide (quantities_at p stack = [])
    then table !! p
    else Some (wrap_long (default 0 (table !! p) + Zsum (quantities_at p stack))).
Proof.
  induction stack as [|o stack IH]; intros table p.
  - by rewrite decide_True.
  - cbn [foldl]. rewrite IH, quantities_at_cons. unfold hash_add.
    destruct (decide (order_price o = p)) as [->|Hne].
    + rewrite lookup_insert_eq. cbn [default].
      rewrite (decide_False (P := _ :: _ = [])) by done.
      case_decide as Hq.
      * rewrite Hq. cbn [Zsum foldr]. unfold long_add. by rewrite Z.add_0_r.
      * f_equal. cbn [Zsum foldr]. fold (Zsum (quantities_at p stack)).
        pose proof (long_add_wrap_l (default 0 (table !! p) + order_quantity o)
                      (Zsum (quantities_at p stack))) as Hw.
        unfold long_add in *. etrans; [apply Hw | f_equal; lia].
    + rewrite lookup_insert_ne by done. done.
Qed.

Lemma hash_table_lookup stack p :
  hash_table stack !! p
  = if decide (quantities_at p stack = []) then None
    else Some (wrap_long (Zsum (quantities_at p stack))).
Proof. unfold hash_table. rewrite hash_table_from_lookup, lookup_empty. done. Qed.

Lemma quantities_at_nil_iff p stack :
  quantities_at p stack = [] ↔ p ∉ order_price <$> stack.
Proof.
  unfold quantities_at. split.
  - intros H%fmap_nil_inv (o & -> & Ho)%list_elem_of_fmap.
    by eapply filter_nil_not_elem_of.
  - intros Hp. destruct (filter _ stack) as [|o l] eqn:Hf; [done|].
    assert (Ho : o ∈ filter (λ o, order_price o = p) stack) by (rewrite Hf; left).
    apply list_elem_of_filter in Ho as [<- Ho].
    destruct Hp. by apply list_elem_of_fmap_2.
Qed.

(** The prices of the table are the prices of the stack. *)
Lemma hash_table_dom stack p :
  is_Some (hash_table stack !! p) ↔ p ∈ order_price <$> stack.
Proof.
  rewrite hash_table_lookup. case_decide as H.
  - apply quantities_at_nil_iff in H. split; [by intros [? ?]|done].
  - split; [|by eauto]. intros _.
    destruct (decide (p ∈ order_price <$> stack)) as [|Hn]; [done|].
    by apply quantities_at_nil_iff in Hn.
Qed.

(** Every quantity of the table is a [long]. *)
Lemma hash_table_in_long stack p q :
  hash_table stack !! p = Some q → in_long q.
Proof.
  rewrite hash_table_lookup. case_decide; [done|].
  intros [= <-]. apply wrap_long_range.
Qed.

(** The aggregated stack, up to the order of its elements. *)
Lemma aggregate_stack_perm sd stack :
  aggregate_stack hash_order sd stack
  ≡ₚ (λ b, mkOrder b.1 b.2 sd) <$> map_to_list (hash_table stack).
Proof. unfold aggregate_stack. by rewrite hash_order_perm. Qed.

Lemma aggregate_stack_elem sd stack o :
  o ∈ aggregate_stack hash_order sd stack
  ↔ order_side o = sd
    ∧ hash_table stack !! order_price o = Some (order_quantity o).
Proof.
  rewrite aggregate_stack_perm, list_elem_of_fmap. split.
  - intros ([p q] & -> & H%elem_of_map_to_list). done.
  - intros [<- H]. exists (order_price o, order_quantity o).
    split; [by destruct o|]. by apply elem_of_map_to_list.
Qed.

Lemma aggregate_stack_prices sd stack :
  order_price <$> aggregate_stack hash_order sd stack
  ≡ₚ (map_to_list (hash_table stack)).*1.
Proof.
  rewrite aggregate_stack_perm, <- list_fmap_compose.
  by erewrite list_fmap_ext.
Qed.

(** No two orders of an aggregated stack share a price. *)
Lemma aggregate_stack_NoDup sd stack :
  NoDup (order_price <$> aggregate_stack hash_order sd stack).
Proof. rewrite aggregate_stack_prices. apply NoDup_fst_map_to_list. Qed.

(** The quantity of an aggregated order. *)
Lemma aggregate_stack_quantity sd stack o :
  o ∈ aggregate_stack hash_order sd stack →
  order_side o = sd
  ∧ order_price o ∈ order_price <$> stack
  ∧ order_quantity o = wrap_long (Zsum (quantities_at (order_price o) stack)).
Proof.
  intros [Hsd Ho]%aggregate_stack_elem. split; [done|]. split.
  - apply hash_table_dom. eauto.
  - rewrite hash_table_lookup in Ho. case_decide; [done|]. congruence.
Qed.

Lemma quantities_at_perm p stack stack' :
  stack ≡ₚ stack' → quantities_at p stack ≡ₚ quantities_at p stack'.
Proof. intros H. unfold quantities_at. by rewrite H. Qed.

(** In a list of table entries every price occurs once. *)
Lemma quantities_at_entries sd p (l : list (double * Z)) :
  NoDup (l.*1) →
  quantities_at p ((λ b, mkOrder b.1 b.2 sd) <$> l)
  = option_list ((list_to_map l : gmap double Z) !! p).
Proof.
  induction l as [|[k v] l IH]; intros Hnd; [done|].
  apply NoDup_cons in Hnd as [Hk Hnd].
  rewrite fmap_cons, quantities_at_cons. cbn [list_to_map foldr order_price fst snd].
  cbn [order_quantity]. case_decide as Hkp.
  - subst k. rewrite lookup_insert_eq, IH by done.
    by rewrite (not_elem_of_list_to_map_1 _ _ Hk).
  - rewrite lookup_insert_ne by done. by apply IH.
Qed.

(** Aggregating an aggregated stack rebuilds the same table. *)
Lemma hash_table_aggregate_stack sd stack :
  hash_table (aggregate_stack hash_order sd stack) = hash_table stack.
Proof.
  apply map_eq. intros p. rewrite (hash_table_lookup (aggregate_stack _ _ _)).
  pose proof (quantities_at_perm p _ _ (aggregate_stack_perm sd stack)) as Hp.
  rewrite quantities_at_entries, list_to_map_to_list in Hp
    by apply NoDup_fst_map_to_list.
  destruct (hash_table stack !! p) as [q|] eqn:Hq; cbn [option_list] in Hp.
  - apply Permutation_singleton_r in Hp. rewrite Hp.
    rewrite decide_False by done. cbn [Zsum foldr]. rewrite Z.add_0_r.
    f_equal. apply wrap_long_id. by eapply hash_table_in_long.
  - apply Permutation_nil_r in Hp. rewrite Hp. by rewrite decide_True.
Qed.

Lemma aggregate_stack_idempotent sd stack :
  aggregate_stack hash_order sd (aggregate_stack hash_order sd stack)
  ≡ₚ aggregate_stack hash_order sd stack.
Proof.
  rewrite (aggregate_stack_perm sd (aggregate_stack _ _ _)).
  rewrite hash_table_aggregate_stack. symmetry. apply aggregate_stack_perm.
Qed.

(** When the exact sum fits a [long], it is the quantity. *)
Lemma aggregate_stack_quantity_exact sd stack o :
  o ∈ aggregate_stack hash_order sd stack →
  in_long (Zsum (quantities_at (order_price o) stack)) →
  order_quantity o = Zsum (quantities_at (order_price o) stack).
Proof.
  intros (_ & _ & ->)%aggregate_stack_quantity Hin. by apply wrap_long_id.
Qed.

(** The declarations of [AggregateDepth] bind a [T&] and two
    [vector<Order>&] to what [const] getters return. *)
Lemma AggregateDepth_ill_formed : well_formed AggregateDepth_declarations = false.
Proof. reflexivity. Qed.

(** What the statements of [AggregateDepth] build on a stored book, and
    what they return of it. *)
Lemma AggregateDepth_body_stored s productId book :
  orderBooks s !! productId = Some book →
  AggregateDepth_body hash_order s productId
  = (s, Temporary (aggregate_book hash_order book)).
Proof. intros H. unfold AggregateDepth_body, MarketData.GetData. by rewrite H. Qed.

(** C4.  On a stored order book [AggregateDepth] gives its caller no
    order book.  The member function cannot be instantiated: it binds
    references that are not [const] to what the [const] getters of the
    stored book return.  And its statements, taken as they are written,
    build the order book the claim describes (no two orders of a stack
    at one price, each with the sum of the source quantities at its
    price, reduced to the 64 bits of a [long]) in a temporary and
    return a reference to it, which cannot be read once the function
    has returned. *)
Theorem AggregateDepth_no_book (s : MarketDataService) (productId : string)
    (book : OrderBook) :
  orderBooks s !! productId = Some book →
  AggregateDepth hash_order s productId = None
  ∧ ∃ out, AggregateDepth_body hash_order s productId = (s, Temporary out)
         ∧ read (AggregateDepth_body hash_order s productId).2 = None
         ∧ aggregated BID (GetBidStack book) (GetBidStack out)
         ∧ aggregated OFFER (GetOfferStack book) (GetOfferStack out).
Proof.
  intros Hbook. split.
  - unfold AggregateDepth. by rewrite AggregateDepth_ill_formed.
  - exists (aggregate_book hash_order book).
    rewrite (AggregateDepth_body_stored _ _ _ Hbook). cbn [snd read].
    split_and!; [done | done | ..];
      (split; [apply aggregate_stack_NoDup | apply aggregate_stack_quantity]).
Qed.

(** C5.  No second aggregation takes place.  After an order book has
    been stored, [AggregateDepth] gives no order book to store and
    aggregate again: it cannot be instantiated, on this service or on
    any other, and the reference its statements return is to a
    destroyed temporary.  The loops themselves would be idempotent:
    run again on what that temporary held, they build, on each side,
    the same orders up to their order. *)
Theorem AggregateDepth_twice_no_book (s : MarketDataService) (b : OrderBook) :
  let productId := GetProductId (book_product b) in
  let s1 := (MarketData.OnMessage s b).1 in
  AggregateDepth hash_order s1 productId = None
  ∧ (∀ s2, AggregateDepth hash_order s2 productId = None)
  ∧ ∃ once, AggregateDepth_body hash_order s1 productId = (s1, Temporary once)
          ∧ read (AggregateDepth_body hash_order s1 productId).2 = None
          ∧ GetBidStack (aggregate_book hash_order once) ≡ₚ GetBidStack once
          ∧ GetOfferStack (aggregate_book hash_order once) ≡ₚ GetOfferStack once.
Proof.
  cbn zeta.
  assert (Hnone : ∀ s2, AggregateDepth hash_order s2 (GetProductId (book_product b))
                        = None).
  { intros s2. unfold AggregateDepth. by rewrite AggregateDepth_ill_formed. }
  split_and!; [apply Hnone | exact Hnone |].
  exists (aggregate_book hash_order b).
  rewrite (AggregateDepth_body_stored _ _ b) by apply lookup_insert_eq.
  cbn [snd read aggregate_book GetBidStack GetOfferStack].
  split_and!; [done | done | apply aggregate_stack_idempotent..].
Qed.

End AggregateDepthFacts.

(** ** Algorithmic execution *)

Section AlgoExecuteOrderFacts.

Variable u : indeterminate.

Lemma rem_2_even c : 0 ≤ c → Z.even c = true → Z.rem c 2 = 0.
Proof.
  intros Hc He. rewrite Z.rem_mod_nonneg by lia.
  apply Z.even_spec in He as [k ->]. rewrite Z.mul_comm. by apply Z_mod_mult.
Qed.

Lemma rem_2_odd c : 0 ≤ c → Z.even c = false → Z.rem c 2 = 1.
Proof.
  intros Hc He. rewrite Z.rem_mod_nonneg by lia.
  rewrite <- Z.negb_odd in He. apply negb_false_iff, Z.odd_spec in He as [k ->].
  rewrite Z.add_comm, Z.mul_comm, Z_mod_plus_full. done.
Qed.

(** The first loop of [GetBidOffer] keeps the highest price seen. *)
Lemma best_bid_fold stack : ∀ acc,
  let r := foldl best_bid_step acc stack in
  (acc.1 ≤ r.1)%Qc
  ∧ (∀ b, b ∈ stack → (order_price b ≤ r.1)%Qc)
  ∧ (r = acc ∨ (r.2 ∈ stack ∧ r.1 = order_price r.2)).
Proof.
  induction stack as [|b stack IH]; intros acc; cbn zeta.
  - split_and!; [done | by intros ? ?%elem_of_nil | by left].
  - cbn [foldl]. destruct (IH (best_bid_step acc b)) as (Hle & Hmax & Hin).
    unfold best_bid_step in *. case_decide as Hlt.
    + cbn [fst snd] in *. split_and!.
      * etrans; [by apply Qclt_le_weak|done].
      * intros b' [->|Hb']%elem_of_cons; [done | by apply Hmax].
      * right. destruct Hin as [->|[Hin Hp]]; [split; [left|done]|].
        split; [by right|done].
    + split_and!; [done | | ].
      * intros b' [->|Hb']%elem_of_cons; [|by apply Hmax].
        etrans; [|exact Hle]. by apply Qcnot_lt_le.
      * destruct Hin as [->|[Hin Hp]]; [by left|]. right. split; [by right|done].
Qed.

(** The second loop keeps the lowest price seen. *)
Lemma best_offer_fold stack : ∀ acc,
  let r := foldl best_offer_step acc stack in
  (r.1 ≤ acc.1)%Qc
  ∧ (∀ o, o ∈ stack → (r.1 ≤ order_price o)%Qc)
  ∧ (r = acc ∨ (r.2 ∈ stack ∧ r.1 = order_price r.2)).
Proof.
  induction stack as [|o stack IH]; intros acc; cbn zeta.
  - split_and!; [done | by intros ? ?%elem_of_nil | by left].
  - cbn [foldl]. destruct (IH (best_offer_step acc o)) as (Hle & Hmin & Hin).
    unfold best_offer_step in *. case_decide as Hlt.
    + cbn [fst snd] in *. split_and!.
      * etrans; [done | by apply Qclt_le_weak].
      * intros o' [->|Ho']%elem_of_cons; [done | by apply Hmin].
      * right. destruct Hin as [->|[Hin Hp]]; [split; [left|done]|].
        split; [by right|done].
    + split_and!; [done | | ].
      * intros o' [->|Ho']%elem_of_cons; [|by apply Hmin].
        etrans; [exact Hle|]. by apply Qcnot_lt_le.
      * destruct Hin as [->|[Hin Hp]]; [by left|]. right. split; [by right|done].
Qed.

(** On a book whose stacks hold a price within the range of [int],
    [GetBidOffer] returns the highest bid and the lowest offer. *)
Lemma GetBidOffer_best book :
  (∃ b, b ∈ GetBidStack book ∧ (of_Z INT_MIN < order_price b)%Qc) →
  (∃ o, o ∈ GetOfferStack book ∧ (order_price o < of_Z INT_MAX)%Qc) →
  let bo := GetBidOffer u book in
  GetBidOrder bo ∈ GetBidStack book
  ∧ (∀ b, b ∈ GetBidStack book → (order_price b ≤ order_price (GetBidOrder bo))%Qc)
  ∧ GetOfferOrder bo ∈ GetOfferStack book
  ∧ (∀ o, o ∈ GetOfferStack book → (order_price (GetOfferOrder bo) ≤ order_price o)%Qc).
Proof.
  intros (b & Hb & Hbp) (o & Ho & Hop). unfold GetBidOffer.
  destruct (best_bid_fold (GetBidStack book) (of_Z INT_MIN, indeterminate_bid u))
    as (_ & Hmax & Hbin).
  destruct (best_offer_fold (GetOfferStack book) (of_Z INT_MAX, indeterminate_offer u))
    as (_ & Hmin & Hoin).
  destruct (foldl best_bid_step _ _) as [bp bo].
  destruct (foldl best_offer_step _ _) as [op oo].
  cbn [fst snd GetBidOrder GetOfferOrder] in *.
  destruct Hbin as [[= -> ->]|[Hbin ->]].
  { apply Hmax in Hb. by apply Qcle_not_lt in Hb. }
  destruct Hoin as [[= -> ->]|[Hoin ->]].
  { apply Hmin in Ho. by apply Qcle_not_lt in Ho. }
  done.
Qed.

Lemma rem_2_parity c :
  0 ≤ c → Z.rem c 2 = if Z.even c then 0 else 1.
Proof.
  intros Hc. destruct (Z.even c) eqn:He; [by apply rem_2_even | by apply rem_2_odd].
Qed.

(** A book within the threshold fires a cross. *)
Lemma AlgoExecuteOrder_fire s _orderId _orderBook :
  0 ≤ count s < LONG_MAX →
  let _bidOffer := GetBidOffer u _orderBook in
  (order_price (GetOfferOrder _bidOffer) - order_price (GetBidOrder _bidOffer)
   ≤ spread s)%Qc →
  let _algoExecution :=
    AlgoExecution_new (book_product _orderBook) (crossed_side (count s)) _orderId
      MARKET (order_price (crossed (count s) _bidOffer))
      (order_quantity (crossed (count s) _bidOffer)) 0 EmptyString false in
  AlgoExecuteOrder u s _orderId _orderBook
  = (mkAlgoExecutionService
       (<[GetProductId (book_product _orderBook) := _algoExecution]> (algoExecutions s))
       (algo_listeners s) (spread s) (count s + 1),
     dispatch (algo_listeners s) _algoExecution).
Proof.
  intros Hcount ? Hfire. cbn zeta. unfold AlgoExecuteOrder.
  rewrite decide_True by done.
  assert (Hadd : long_add (count s) 1 = count s + 1).
  { apply wrap_long_id. unfold in_long, LONG_MIN, LONG_MAX in *. lia. }
  rewrite Hadd, rem_2_parity by lia. unfold crossed, crossed_side.
  by destruct (Z.even (count s)).
Qed.

(** A book beyond the threshold changes nothing. *)
Lemma AlgoExecuteOrder_skip s _orderId _orderBook :
  let _bidOffer := GetBidOffer u _orderBook in
  ¬ (order_price (GetOfferOrder _bidOffer) - order_price (GetBidOrder _bidOffer)
     ≤ spread s)%Qc →
  AlgoExecuteOrder u s _orderId _orderBook = (s, []).
Proof. intros ? Hfire. unfold AlgoExecuteOrder. by rewrite decide_False. Qed.






(** The spread is never changed and the counter only counts up: the
    hypotheses of the statement above hold all along a run. *)
Lemma AlgoExecuteOrders_invariant updates : ∀ s,
  0 ≤ count s → count s + Z.of_nat (length updates) ≤ LONG_MAX →
  let r := AlgoExecuteOrders u s updates in
  spread r.1 = spread s
  ∧ count s ≤ count r.1 ≤ count s + Z.of_nat (length updates).
Proof.
  induction updates as [|[_orderId _orderBook] updates IH]; intros s Hc Hlen.
  - cbn. split; [done | lia].
  - cbn [AlgoExecuteOrders length] in *.
    destruct (decide (order_price (GetOfferOrder (GetBidOffer u _orderBook))
                      - order_price (GetBidOrder (GetBidOffer u _orderBook))
                      ≤ spread s)%Qc) as [Hfire|Hskip].
    + rewrite AlgoExecuteOrder_fire by (done || lia).
      match goal with |- context [AlgoExecuteOrders u ?s' updates] =>
        specialize (IH s'); destruct (AlgoExecuteOrders u s' updates) as [s2 evs] end.
      cbn [spread count fst snd] in *. destruct IH as [Hs Hcnt]; [lia | lia |].
      split; [done | lia].
    + rewrite AlgoExecuteOrder_skip by done.
      specialize (IH s Hc). destruct (AlgoExecuteOrders u s updates) as [s2 evs].
      cbn [fst snd] in *. destruct IH as [Hs Hcnt]; [lia|]. split; [done | lia].
Qed.

(** Over a sequence of updates the crosses alternate: with one
    listener registered, the [k]-th event raised carries the side the
    counter gives it, and the counter counts the crosses. *)
Lemma AlgoExecuteOrders_alternate updates : ∀ s l,
  algo_listeners s = [l] →
  0 ≤ count s → count s + Z.of_nat (length updates) ≤ LONG_MAX →
  let r := AlgoExecuteOrders u s updates in
  count r.1 = count s + Z.of_nat (length r.2)
  ∧ (length r.2 ≤ length updates)%nat
  ∧ ∀ k e, r.2 !! k = Some e →
      GetPricingSide (GetExecutionOrder e.2) = crossed_side (count s + Z.of_nat k).
Proof.
  induction updates as [|[_orderId _orderBook] updates IH]; intros s l Hl Hc Hlen.
  - cbn. split_and!; [lia | done | intros k e H; by rewrite lookup_nil in H].
  - cbn [AlgoExecuteOrders length] in *.
    destruct (decide (order_price (GetOfferOrder (GetBidOffer u _orderBook))
                      - order_price (GetBidOrder (GetBidOffer u _orderBook))
                      ≤ spread s)%Qc) as [Hfire|Hskip].
    + rewrite AlgoExecuteOrder_fire by (done || lia).
      match goal with |- context [AlgoExecuteOrders u ?s' updates] =>
        specialize (IH s' l); destruct (AlgoExecuteOrders u s' updates) as [s2 evs] end.
      cbn [algo_listeners count fst snd] in *. rewrite Hl in *.
      destruct IH as (Hcnt & Hle & Hside); [done | lia | lia |].
      cbn [dispatch fmap list_fmap app length]. split_and!; [lia | lia |].
      intros [|k] e; cbn.
      * intros [= <-]. cbn. by rewrite Z.add_0_r.
      * intros He. rewrite (Hside _ _ He). f_equal. lia.
    + rewrite AlgoExecuteOrder_skip by done.
      specialize (IH s l Hl Hc). destruct (AlgoExecuteOrders u s updates) as [s2 evs].
      cbn [fst snd app] in *. destruct IH as (Hcnt & Hle & Hside); [lia|].
      split_and!; [done | lia | done].
Qed.

End AlgoExecuteOrderFacts.

(** ** The inquiry service *)

Section InquiryFacts.

Lemma store_store s d d' :
  GetInquiryId d' = GetInquiryId d →
  InquirySvc.store (InquirySvc.store s d) d' = InquirySvc.store s d'.
Proof.
  intros Hid. unfold InquirySvc.store. cbn. rewrite Hid.
  by rewrite insert_insert_eq.
Qed.

(** A quoted inquiry is marked done, stored, and sent to the listeners;
    this is the inner call of the round trip. *)
Lemma OnMessage_quoted depth s _data :
  GetState _data = QUOTED →
  InquirySvc.OnMessage (S depth) s _data
  = Some (mkInqResult (InquirySvc.store s (SetState _data DONE))
            (SetState _data DONE)
            (dispatch (inq_listeners s) (SetState _data DONE))).
Proof. intros Hst. cbn [InquirySvc.OnMessage]. by rewrite Hst. Qed.

(** A received inquiry is stored and handed to the connector, which
    calls the service back. *)
Lemma OnMessage_received_unfold depth s _data :
  GetState _data = RECEIVED →
  InquirySvc.OnMessage (S depth) s _data
  = InquirySvc.Publish (InquirySvc.OnMessage depth) (InquirySvc.store s _data) _data.
Proof. intros Hst. cbn [InquirySvc.OnMessage]. by rewrite Hst. Qed.

(** Without room for the nested call the ingestion does not complete. *)
Lemma OnMessage_received_depth_1 s _data :
  GetState _data = RECEIVED → InquirySvc.OnMessage 1 s _data = None.
Proof.
  intros Hst. rewrite OnMessage_received_unfold by done.
  unfold InquirySvc.Publish. by rewrite Hst, decide_True.
Qed.

(** The number of events a listener received for an inquiry. *)
Lemma received_dispatch (l : Listener) (listeners : list Listener) (i : Inquiry) :
  length (filter (λ e, e.1 = l) (dispatch listeners i))
  = length (filter (λ l', l' = l) listeners).
Proof.
  unfold dispatch. induction listeners as [|l' listeners IH]; [done|].
  rewrite fmap_cons, !filter_cons. cbn [fst].
  case_decide; cbn [length]; by rewrite IH.
Qed.

(** C3.  For every inquiry in state [RECEIVED], the call of [OnMessage]
    returns (one nested call through the connector is enough); the
    inquiry stored under its identifier is then the inquiry in state
    [DONE], and the events raised are one [ProcessAdd] of that inquiry
    per registered listener, in registration order: a listener receives
    as many events as it has registrations. *)
Theorem OnMessage_received (depth : nat) (s : InquiryService) (_data : Inquiry) :
  GetState _data = RECEIVED → (2 ≤ depth)%nat →
  let done_ := SetState _data DONE in
  ∃ r, InquirySvc.OnMessage depth s _data = Some r
    ∧ inquiries (res_service r) !! GetInquiryId _data = Some done_
    ∧ GetState done_ = DONE
    ∧ res_data r = done_
    ∧ res_events r = (λ l, (l, done_)) <$> inq_listeners s
    ∧ ∀ l, length (filter (λ e, e.1 = l) (res_events r))
           = length (filter (λ l', l' = l) (inq_listeners s)).
Proof.
  intros Hst Hdepth. destruct depth as [|[|depth]]; [lia..|]. cbn zeta.
  eexists. split.
  - rewrite OnMessage_received_unfold by done.
    unfold InquirySvc.Publish, InquirySvc.Subscribe_inquiry.
    rewrite Hst, decide_True by done.
    rewrite OnMessage_quoted by done. rewrite store_store by done. done.
  - cbn [res_service res_data res_events].
    split_and!; [apply lookup_insert_eq | done | done | done |].
    intros l. apply received_dispatch.
Qed.


End InquiryFacts.

(** ** Reference data and the pricing service *)

Section PricingFacts.

Lemma GetBond_unknown _cusip :
  _cusip ∉ known_cusips → GetBond _cusip = Bond_default.
Proof.
  unfold known_cusips. intros Hn. unfold GetBond.
  repeat (rewrite decide_False; [|intros ->; apply Hn; set_solver]).
  done.
Qed.

Lemma GetBond_known _cusip :
  _cusip ∈ known_cusips → GetProductId (GetBond _cusip) = _cusip.
Proof.
  unfold known_cusips. intros Hin.
  repeat (apply elem_of_cons in Hin as [->|Hin]; [by vm_compute|]).
  by apply elem_of_nil in Hin.
Qed.

(** One well-formed line of the price file: the price is built, handed
    to [OnMessage], and the loop goes on with the next line. *)
Lemma PricingConnector_Subscribe_line service _line rest _productId _bid _offer :
  pricing_parse_line _line = Some (_productId, _bid, _offer) →
  let _price := pricing_row _productId _bid _offer in
  let r := PricingConnector.Subscribe (Pricing.OnMessage service _price).1 rest in
  PricingConnector.Subscribe service (_line :: rest)
  = mkPricingRun (prun_service r)
      (dispatch (pricing_listeners service) _price ++ prun_events r)
      (_price :: prun_delivered r) (prun_outcome r).
Proof. intros Hp. cbn [PricingConnector.Subscribe]. by rewrite Hp. Qed.

(** C6, as amended.  For every row [(_productId, _bid, _offer)] of the
    price file, the [Price] passed to [OnMessage] has mid
    [(_bid + _offer) / 2], spread [_offer - _bid] and the product
    [GetBond _productId]; [OnMessage] stores it under the identifier of
    that product, which is [_productId] for the six known CUSIPs and the
    empty identifier of the default bond otherwise, overwriting any
    earlier value, and calls [ProcessAdd] on every registered listener;
    the connector then goes on with the next row. *)
Theorem PricingConnector_row (service : PricingService) (_line : string)
    (rest : list string) (_productId : string) (_bid _offer : double) :
  pricing_parse_line _line = Some (_productId, _bid, _offer) →
  ∃ _price,
    GetMid _price = ((_bid + _offer) / of_Z 2)%Qc
    ∧ GetBidOfferSpread _price = (_offer - _bid)%Qc
    ∧ price_product _price = GetBond _productId
    ∧ (_productId ∈ known_cusips → GetProductId (price_product _price) = _productId)
    ∧ (_productId ∉ known_cusips → GetProductId (price_product _price) = EmptyString)
    ∧ prices (Pricing.OnMessage service _price).1
      = <[GetProductId (price_product _price) := _price]> (prices service)
    ∧ (Pricing.OnMessage service _price).2
      = (λ l, (l, _price)) <$> pricing_listeners service
    ∧ let r := PricingConnector.Subscribe (Pricing.OnMessage service _price).1 rest in
      PricingConnector.Subscribe service (_line :: rest)
      = mkPricingRun (prun_service r)
          ((Pricing.OnMessage service _price).2 ++ prun_events r)
          (_price :: prun_delivered r) (prun_outcome r).
Proof.
  intros Hp. exists (pricing_row _productId _bid _offer).
  split_and!; try done.
  - apply GetBond_known.
  - intros Hn. cbn. by rewrite GetBond_unknown.
  - by apply PricingConnector_Subscribe_line.
Qed.

(** C9.  For every product identifier that is not one of the six known
    CUSIPs, [GetBond] returns the default constructed bond, whose fields
    are empty, and the ingestion of a row with such an identifier goes
    on: the price is built on that bond, stored, sent to the listeners,
    and the next row is read. *)
Theorem GetBond_unknown_default (_cusip : string) :
  _cusip ∉ known_cusips →
  GetBond _cusip = Bond_default
  ∧ (productId Bond_default = EmptyString ∧ ticker Bond_default = EmptyString
     ∧ coupon Bond_default = 0%Qc ∧ maturityDate Bond_default = EmptyString)
  ∧ ∀ service _line rest _bid _offer,
      pricing_parse_line _line = Some (_cusip, _bid, _offer) →
      let _price := mkPrice Bond_default ((_bid + _offer) / of_Z 2)%Qc (_offer - _bid)%Qc in
      let r := PricingConnector.Subscribe (Pricing.OnMessage service _price).1 rest in
      PricingConnector.Subscribe service (_line :: rest)
      = mkPricingRun (prun_service r)
          (((λ l, (l, _price)) <$> pricing_listeners service) ++ prun_events r)
          (_price :: prun_delivered r) (prun_outcome r).
Proof.
  intros Hn. split_and!; try done; [by apply GetBond_unknown|].
  intros service _line rest _bid _offer Hp.
  rewrite (PricingConnector_Subscribe_line _ _ _ _ _ _ Hp).
  unfold pricing_row. by rewrite GetBond_unknown.
Qed.

End PricingFacts.

(** ** The execution service *)

Section ExecutionFacts.

(** C8.  [ExecutionService::OnMessage] stores the order under its product
    identifier and raises no listener event; [ExecuteOrder] stores the
    order and calls [ProcessAdd] on every registered listener; and a
    call on the service that raises a listener event is a call of
    [ExecuteOrder]. *)
Theorem ExecutionService_dispatch (s : ExecutionService) (_data : ExecutionOrder) :
  let _productId := GetProductId (eo_product _data) in
  ((Execution.OnMessage s _data).2 = []
   ∧ executionOrders (Execution.OnMessage s _data).1
     = <[_productId := _data]> (executionOrders s)
   ∧ exec_listeners (Execution.OnMessage s _data).1 = exec_listeners s)
  ∧ ((Execution.ExecuteOrder s _data).2 = (λ l, (l, _data)) <$> exec_listeners s
     ∧ executionOrders (Execution.ExecuteOrder s _data).1
       = <[_productId := _data]> (executionOrders s)
     ∧ exec_listeners (Execution.ExecuteOrder s _data).1 = exec_listeners s)
  ∧ ∀ c, (Execution.run c s).2 ≠ [] → ∃ o, c = Execution.CallExecuteOrder o.
Proof.
  cbn zeta. split_and!; try done.
  intros [k|d|l| |o] Hev; cbn in Hev; try done. by exists o.
Qed.

(** The listener bound to the algo execution service stores the order
    twice and raises the events of [ExecuteOrder] only. *)
Lemma ExecutionToAlgoExecutionListener_ProcessAdd_events service _data :
  ExecutionToAlgoExecutionListener_ProcessAdd service _data
  = ((Execution.ExecuteOrder service (GetExecutionOrder _data)).1,
     dispatch (exec_listeners service) (GetExecutionOrder _data)).
Proof.
  unfold ExecutionToAlgoExecutionListener_ProcessAdd, Execution.OnMessage,
    Execution.ExecuteOrder.
  cbn. by rewrite insert_insert_eq.
Qed.

End ExecutionFacts.

(** ** The market data connector *)

Section MarketDataConnectorFacts.

Lemma bids_of_snoc pending (row : string * Order) :
  bids_of (pending ++ [row])
  = match order_side row.2 with
    | BID => bids_of pending ++ [row.2]
    | OFFER => bids_of pending
    end.
Proof.
  unfold bids_of. rewrite fmap_app, filter_app. cbn.
  destruct (order_side row.2); cbn; [done | by rewrite app_nil_r].
Qed.

Lemma offers_of_snoc pending (row : string * Order) :
  offers_of (pending ++ [row])
  = match order_side row.2 with
    | BID => offers_of pending
    | OFFER => offers_of pending ++ [row.2]
    end.
Proof.
  unfold offers_of. rewrite fmap_app, filter_app. cbn.
  destruct (order_side row.2); cbn; [by rewrite app_nil_r | done].
Qed.

Lemma last_snoc_fst pending (row : string * Order) :
  default EmptyString (last ((pending ++ [row]).*1)) = row.1.
Proof. rewrite fmap_app. cbn. by rewrite last_snoc. Qed.

(** One well-formed line: the order joins its stack, and an order book
    is delivered when the count reaches the size of a group. *)
Lemma md_loop_line _thread _line lines pending s (row : string * Order) :
  md_parse_line _line = Some row →
  Z.of_nat (length pending) < LONG_MAX →
  md_loop _thread (_line :: lines) (locals_of pending) s
  = if decide (Z.of_nat (length (pending ++ [row])) = _thread) then
      let _orderBook := book_of_group (pending ++ [row]) in
      let r := md_loop _thread lines (locals_of [])
                 (MarketData.OnMessage s _orderBook).1 in
      mkRun (run_service r) ((MarketData.OnMessage s _orderBook).2 ++ run_events r)
        (_orderBook :: run_delivered r) (run_outcome r)
    else md_loop _thread lines (locals_of (pending ++ [row])) s.
Proof.
  intros Hp Hlen. destruct row as [_productId _order].
  cbn [md_loop]. rewrite Hp.
  assert (Hadd : long_add (Z.of_nat (length pending)) 1
                 = Z.of_nat (length (pending ++ [(_productId, _order)]))).
  { rewrite length_app, Nat2Z.inj_add. cbn [length]. change (Z.of_nat 1) with 1.
    apply wrap_long_id. unfold in_long, LONG_MIN, LONG_MAX in *. lia. }
  unfold book_of_group, locals_of.
  rewrite last_snoc_fst, bids_of_snoc, offers_of_snoc. cbn [snd fst].
  destruct (order_side _order); cbn [_count _bidStack _offerStack];
    rewrite Hadd; unfold MarketData.OnMessage;
    (destruct (decide (Z.of_nat (length (pending ++ [(_productId, _order)])) = _thread));
     [rewrite ?decide_True by done | rewrite ?decide_False by done]);
    reflexivity.
Qed.

(** The loop of [Subscribe] on well-formed lines. *)
Lemma md_loop_deliver (n : nat) lines : ∀ rows pending s,
  Forall2 (λ _line row, md_parse_line _line = Some row) lines rows →
  Z.of_nat n < LONG_MAX → (length pending < n)%nat →
  ∃ evs,
    md_loop (Z.of_nat n) lines (locals_of pending) s
    = mkRun (after_books s (deliver n pending rows)) evs
        (deliver n pending rows) Finished.
Proof.
  induction lines as [|_line lines IH]; intros rows pending s Hrows Hn Hlen.
  { apply Forall2_nil_inv_l in Hrows as ->. by eexists. }
  apply Forall2_cons_inv_l in Hrows as (row & rows' & Hp & Hrows & ->).
  rewrite (md_loop_line _ _ _ _ _ row) by (done || lia).
  cbn [deliver]. destruct (decide (length (pending ++ [row]) = n)) as [Heq|Hne].
  - rewrite decide_True by (by rewrite Heq). cbn zeta.
    edestruct (IH rows' []) as [evs ->]; [done | done | cbn [length]; lia |].
    cbn [run_service run_events run_delivered run_outcome]. by eexists.
  - rewrite decide_False by (intros He; by apply Hne, Nat2Z.inj).
    apply IH; [done | done |].
    rewrite length_app in *. cbn [length] in *. lia.
Qed.

(** Rows that do not complete a group only join the pending rows. *)
Lemma deliver_pending n extra : ∀ pending rows,
  (length (pending ++ extra) < n)%nat →
  deliver n pending (extra ++ rows) = deliver n (pending ++ extra) rows.
Proof.
  induction extra as [|row extra IH]; intros pending rows Hlen.
  - by rewrite app_nil_r.
  - cbn [app deliver]. rewrite !length_app in Hlen. cbn [length] in Hlen.
    rewrite decide_False by (rewrite length_app; cbn [length]; lia).
    rewrite IH by (rewrite !length_app; cbn [length]; lia).
    by rewrite <- app_assoc.
Qed.

Lemma deliver_short n pending rows :
  (length (pending ++ rows) < n)%nat → deliver n pending rows = [].
Proof.
  intros Hlen. rewrite <- (app_nil_r rows). by rewrite deliver_pending.
Qed.

(** A full group at the head of the file delivers its order book. *)
Lemma deliver_group n group rest :
  (0 < n)%nat → length group = n →
  deliver n [] (group ++ rest) = book_of_group group :: deliver n [] rest.
Proof.
  intros Hn Hlen. destruct (decide (group = [])) as [->|Hne]; [cbn in Hlen; lia|].
  destruct (exists_last Hne) as (front & row & ->).
  rewrite length_app in Hlen. cbn [length] in Hlen.
  rewrite <- app_assoc. cbn [app].
  rewrite deliver_pending by (cbn [app]; lia).
  cbn [deliver app]. by rewrite decide_True by (rewrite length_app; cbn [length]; lia).
Qed.

(** The order books of a file, group by group. *)
Lemma deliver_groups n : (0 < n)%nat → ∀ q rows,
  (length rows / n)%nat = q →
  length (deliver n [] rows) = q
  ∧ ∀ i, (i < q)%nat →
      deliver n [] rows !! i = Some (book_of_group (take n (drop (i * n) rows))).
Proof.
  intros Hn. induction q as [|q IH]; intros rows Hq.
  - apply Nat.div_small_iff in Hq; [|lia].
    rewrite deliver_short by done. split; [done | lia].
  - assert (Hlen : (n ≤ length rows)%nat).
    { destruct (decide (n ≤ length rows)%nat) as [|Hlt]; [done|].
      rewrite Nat.div_small in Hq by lia. done. }
    assert (Hq' : (length (drop n rows) / n)%nat = q).
    { rewrite length_drop.
      replace (length rows) with ((length rows - n) + 1 * n)%nat in Hq by lia.
      rewrite Nat.div_add in Hq by lia. lia. }
    destruct (IH _ Hq') as [IHlen IHget].
    assert (Hd : deliver n [] rows
                 = book_of_group (take n rows) :: deliver n [] (drop n rows)).
    { rewrite <- (take_drop n rows) at 1.
      apply deliver_group; [done|]. rewrite length_take. lia. }
    rewrite Hd.
    split; [cbn [length]; by rewrite IHlen|].
    intros [|i] Hi.
    + by rewrite Nat.mul_0_l, drop_0.
    + cbn [lookup list_lookup]. rewrite IHget by lia.
      by rewrite drop_drop.
Qed.

Lemma parsed_rows lines :
  Forall (λ _line, is_Some (md_parse_line _line)) lines →
  Forall2 (λ _line row, md_parse_line _line = Some row) lines
    (omap md_parse_line lines)
  ∧ length (omap md_parse_line lines) = length lines.
Proof.
  induction 1 as [|_line lines [row Hrow] _ [IH1 IH2]]; [done|].
  cbn [omap list_omap]. rewrite Hrow. cbn [length].
  split; [by constructor | by rewrite IH2].
Qed.

(** C10, as amended.  For every market data file whose rows are all
    well formed, read with a book depth [d] (5 in the constructor),
    [Subscribe] reaches the end of the file and delivers to [OnMessage]
    one order book per full group of [2 * d] consecutive rows, made of
    the rows of that group; the rows after the last full group deliver
    nothing and leave no trace in the service. *)
Theorem MarketDataConnector_groups (service : MarketDataService)
    (_data : list string) :
  0 < bookDepth service ≤ 2 ^ 30 - 1 →
  Forall (λ _line, is_Some (md_parse_line _line)) _data →
  let rows := omap md_parse_line _data in
  let group := Z.to_nat (2 * bookDepth service) in
  let r := MarketDataConnector.Subscribe service _data in
  run_outcome r = Finished
  ∧ length (run_delivered r) = (length _data / group)%nat
  ∧ (∀ i, (i < length _data / group)%nat →
       run_delivered r !! i
       = Some (book_of_group (take group (drop (i * group) rows))))
  ∧ run_service r = after_books service (run_delivered r).
Proof.
  intros Hdepth Hwf. cbn zeta.
  destruct (parsed_rows _ Hwf) as [Hrows Hlenrows].
  unfold MarketDataConnector.Subscribe, MarketData.GetBookDepth.
  assert (Hthread : int_mul (bookDepth service) 2
                    = Z.of_nat (Z.to_nat (2 * bookDepth service))).
  { rewrite Z2Nat.id by lia. unfold int_mul. rewrite wrap_int_id; [lia|].
    unfold in_int, INT_MIN, INT_MAX. lia. }
  rewrite Hthread. change (mkLocals 0 [] []) with (locals_of []).
  destruct (md_loop_deliver (Z.to_nat (2 * bookDepth service)) _data _ [] service Hrows)
    as [evs ->]; [unfold LONG_MAX; lia | cbn [length]; lia |].
  cbn [run_outcome run_delivered run_service].
  destruct (deliver_groups (Z.to_nat (2 * bookDepth service)) ltac:(lia) _
              (omap md_parse_line _data) eq_refl) as [Hl Hg].
  rewrite Hlenrows in Hl, Hg. done.
Qed.

End MarketDataConnectorFacts.

(** * The statements on concrete inputs *)

(** ** C1 *)



(** ** C2 *)

(** C2, as stated, fails at the price [2^31], a multiple of 1/256 whose
    whole part does not fit an [int]: the conversion to text is
    undefined there, and the round trip does not give the price back. *)
Lemma ConvertPrice_round_trip_overflow :
  0 ≤ 2 ^ 39
  ∧ decimal (2 ^ 39) 256 = of_Z (2 ^ 31)
  ∧ ConvertPrice_double (decimal (2 ^ 39) 256) = None
  ∧ ConvertPrice_double (decimal (2 ^ 39) 256) ≫= ConvertPrice_string
    ≠ Some (decimal (2 ^ 39) 256).
Proof.
  assert (H : ConvertPrice_double (decimal (2 ^ 39) 256) = None) by (by vm_compute).
  split; [lia|]. split; [by apply Qc_is_canon|]. split; [exact H|].
  rewrite H. discriminate.
Qed.

Lemma ConvertPrice_round_trip_witness :
  0 ≤ 25476 ∧ 25476 / 256 ≤ INT_MAX
  ∧ ConvertPrice_double (decimal 25476 256) ≫= ConvertPrice_string
    = Some (decimal 25476 256).
Proof.
  split; [lia|]. split; [by vm_compute|].
  apply ConvertPrice_round_trip_in_range; [lia | by vm_compute].
Defined.

(** ** C3 *)

Lemma OnMessage_received_witness :
  GetState inquiry_example = RECEIVED ∧ (2 ≤ 2)%nat
  ∧ ∃ r, InquirySvc.OnMessage 2 inquiry_service_example inquiry_example = Some r
      ∧ inquiries (res_service r) !! "I1"%string = Some (SetState inquiry_example DONE)
      ∧ res_events r = [(1%nat, SetState inquiry_example DONE);
                        (2%nat, SetState inquiry_example DONE)].
Proof.
  split; [reflexivity|]. split; [lia|].
  destruct (OnMessage_received 2 inquiry_service_example inquiry_example eq_refl
              (le_n 2)) as (r & Hr & Hstored & _ & _ & Hev & _).
  exists r. split; [exact Hr|]. split; [exact Hstored | exact Hev].
Defined.

(** ** C4 *)

Lemma AggregateDepth_no_book_witness :
  (∀ h m, hash_order_example h m ≡ₚ map_to_list m)
  ∧ orderBooks (MarketData.OnMessage MarketDataService_new duplicate_book).1
      !! "9128283H1"%string = Some duplicate_book
  ∧ AggregateDepth hash_order_example
      (MarketData.OnMessage MarketDataService_new duplicate_book).1 "9128283H1"
    = None
  ∧ read (AggregateDepth_body hash_order_example
            (MarketData.OnMessage MarketDataService_new duplicate_book).1
            "9128283H1").2 = None.
Proof.
  assert (H1 : ∀ h m, hash_order_example h m ≡ₚ map_to_list m) by reflexivity.
  assert (H2 : orderBooks (MarketData.OnMessage MarketDataService_new duplicate_book).1
                 !! "9128283H1"%string = Some duplicate_book) by reflexivity.
  split; [exact H1|]. split; [exact H2|].
  destruct (AggregateDepth_no_book hash_order_example H1 _ _ _ H2)
    as (Hnone & out & _ & Hread & _).
  split; [exact Hnone | exact Hread].
Defined.

(** ** C5 *)

Lemma AggregateDepth_twice_no_book_witness :
  (∀ h m, hash_order_example h m ≡ₚ map_to_list m)
  ∧ AggregateDepth hash_order_example
      (MarketData.OnMessage MarketDataService_new duplicate_book).1 "9128283H1"
    = None
  ∧ read (AggregateDepth_body hash_order_example
            (MarketData.OnMessage MarketDataService_new duplicate_book).1
            "9128283H1").2 = None.
Proof.
  assert (H1 : ∀ h m, hash_order_example h m ≡ₚ map_to_list m) by reflexivity.
  split; [exact H1|].
  destruct (AggregateDepth_twice_no_book hash_order_example H1 MarketDataService_new
              duplicate_book) as (Hnone & _ & once & _ & Hread & _).
  split; [exact Hnone | exact Hread].
Defined.

(** ** C6 *)

(** C6, as stated, fails on rows whose product identifier is not a
    known CUSIP: both prices are delivered, neither is stored under the
    identifier of its row, and the second has overwritten the first
    under the empty identifier of the default bond. *)
Lemma PricingConnector_unknown_product :
  let r := PricingConnector.Subscribe pricing_service_example
             ["ABC,99,101"; "XYZ,50,52"]%string in
  (∃ _bid _offer,
     pricing_parse_line "ABC,99,101" = Some ("ABC"%string, _bid, _offer))
  ∧ (∃ _bid _offer,
       pricing_parse_line "XYZ,50,52" = Some ("XYZ"%string, _bid, _offer))
  ∧ prun_outcome r = Finished
  ∧ length (prun_delivered r) = 2%nat
  ∧ length (prun_events r) = 2%nat
  ∧ prices (prun_service r) !! "ABC"%string = None
  ∧ prices (prun_service r) !! "XYZ"%string = None
  ∧ (∃ _price, prun_delivered r !! 1%nat = Some _price
               ∧ prices (prun_service r) !! EmptyString = Some _price)
  ∧ size (prices (prun_service r)) = 1%nat.
Proof.
  cbn zeta. split; [by eexists _, _|]. split; [by eexists _, _|].
  split_and!; [done | done | done | by vm_compute | by vm_compute | | by vm_compute].
  eexists. split; [reflexivity|]. cbn. apply lookup_insert_eq.
Qed.

Lemma PricingConnector_row_witness :
  (∃ _bid _offer,
     pricing_parse_line "9128283H1,99.5,100.5"
     = Some ("9128283H1"%string, _bid, _offer))
  ∧ ∃ _price,
      prun_delivered (PricingConnector.Subscribe pricing_service_example
                        ["9128283H1,99.5,100.5"%string]) = [_price]
      ∧ GetMid _price = of_Z 100 ∧ GetBidOfferSpread _price = of_Z 1
      ∧ prices (Pricing.OnMessage pricing_service_example _price).1
          !! "9128283H1"%string = Some _price.
Proof.
  assert (Hp : pricing_parse_line "9128283H1,99.5,100.5"
               = Some ("9128283H1"%string, decimal 199 2, decimal 201 2)).
  { vm_compute. do 2 f_equal; f_equal; by apply Qc_is_canon. }
  split; [by eexists _, _|].
  destruct (PricingConnector_row pricing_service_example _ [] _ _ _ Hp)
    as (_price & Hmid & Hspread & _ & Hknown & _ & Hstore & _ & Hrun).
  exists _price. split_and!.
  - cbn zeta in Hrun. by rewrite Hrun.
  - rewrite Hmid. by apply Qc_is_canon.
  - rewrite Hspread. by apply Qc_is_canon.
  - rewrite Hstore, Hknown; [apply lookup_insert_eq|].
    unfold known_cusips. left.
Defined.

(** ** C7 *)


(** ** C8 *)

Lemma ExecutionService_dispatch_witness :
  let s := Execution.AddListener ExecutionService_new 1%nat in
  (Execution.OnMessage s ExecutionOrder_default).2 = []
  ∧ (Execution.ExecuteOrder s ExecutionOrder_default).2
    = [(1%nat, ExecutionOrder_default)].
Proof.
  cbn zeta.
  destruct (ExecutionService_dispatch (Execution.AddListener ExecutionService_new 1%nat)
              ExecutionOrder_default) as ((H1 & _) & (H2 & _) & _).
  split; [exact H1 | exact H2].
Defined.

(** ** C9 *)

Lemma GetBond_unknown_default_witness :
  ("ABC"%string ∉ known_cusips)
  ∧ GetBond "ABC" = Bond_default
  ∧ ∃ _price,
      prun_delivered (PricingConnector.Subscribe pricing_service_example
                        ["ABC,99,101"%string]) = [_price]
      ∧ price_product _price = Bond_default.
Proof.
  assert (Hn : "ABC"%string ∉ known_cusips)
    by (apply (bool_decide_unpack _); by vm_compute).
  destruct (GetBond_unknown_default "ABC" Hn) as (Hbond & _ & Hrow).
  split; [exact Hn|]. split; [exact Hbond|].
  assert (Hp : pricing_parse_line "ABC,99,101"
               = Some ("ABC"%string, of_Z 99, of_Z 101)).
  { vm_compute. do 2 f_equal; f_equal; by apply Qc_is_canon. }
  eexists. rewrite (Hrow pricing_service_example _ [] _ _ Hp). done.
Defined.

(** ** C10 *)

(** C10, as stated, fails on a file of ten rows one of which does not
    parse: the run stops at that row by an exception, and the full
    group of ten rows delivers no order book. *)
Lemma MarketDataConnector_malformed_row :
  let r := MarketDataConnector.Subscribe MarketDataService_new md_file_malformed in
  bookDepth MarketDataService_new = 5
  ∧ length md_file_malformed = 10%nat
  ∧ md_file_malformed !! 2%nat = Some "9128283H1,99,3000000,BID"%string
  ∧ ConvertPrice_string "99" = None
  ∧ run_outcome r = Aborted
  ∧ run_delivered r = []
  ∧ run_service r = MarketDataService_new.
Proof. cbn zeta. split_and!; by vm_compute. Qed.

Lemma MarketDataConnector_groups_witness :
  0 < bookDepth MarketDataService_new ≤ 2 ^ 30 - 1
  ∧ Forall (λ _line, is_Some (md_parse_line _line)) md_file_example
  ∧ length md_file_example = 12%nat
  ∧ let r := MarketDataConnector.Subscribe MarketDataService_new md_file_example in
    run_outcome r = Finished
    ∧ length (run_delivered r) = 1%nat
    ∧ run_delivered r !! 0%nat
      = Some (book_of_group (take 10 (omap md_parse_line md_file_example))).
Proof.
  assert (H1 : 0 < bookDepth MarketDataService_new ≤ 2 ^ 30 - 1) by (by vm_compute).
  assert (H2 : Forall (λ _line, is_Some (md_parse_line _line)) md_file_example).
  { unfold md_file_example. repeat constructor; vm_compute; by eexists. }
  split; [exact H1|]. split; [exact H2|]. split; [reflexivity|].
  destruct (MarketDataConnector_groups MarketDataService_new md_file_example H1 H2)
    as (Hout & Hlen & Hget & _).
  split; [exact Hout|]. split; [exact Hlen|].
  exact (Hget 0%nat ltac:(vm_compute; lia)).
Defined.

(** ** The scenarios of the specification *)

Example ConvertPrice_string_whole :
  ConvertPrice_string "100-000" = Some (of_Z 100).
Proof. vm_compute. f_equal; by apply Qc_is_canon. Qed.

Example ConvertPrice_string_plus :
  ConvertPrice_string "99-16+" = Some (decimal 25476 256).
Proof. vm_compute. f_equal; by apply Qc_is_canon. Qed.

Example ConvertPrice_double_plus :
  ConvertPrice_double (decimal 25476 256) = Some "99-16+"%string.
Proof. by vm_compute. Qed.

Example stod_fraction : stod "99.5" = Some (decimal 199 2).
Proof. vm_compute. f_equal; by apply Qc_is_canon. Qed.

Example aggregate_duplicate_bids :
  aggregate_stack hash_order_example BID (GetBidStack duplicate_book)
  ≡ₚ [mkOrder (of_Z 100) 25 BID; mkOrder (decimal 199 2) 20 BID].
Proof.
  assert (H : aggregate_stack hash_order_example BID (GetBidStack duplicate_book)
              = [mkOrder (decimal 199 2) 20 BID; mkOrder (of_Z 100) 25 BID]
            ∨ aggregate_stack hash_order_example BID (GetBidStack duplicate_book)
              = [mkOrder (of_Z 100) 25 BID; mkOrder (decimal 199 2) 20 BID]).
  { vm_compute. (left; reflexivity) || (right; reflexivity). }
  destruct H as [-> | ->]; [apply Permutation_swap | done].
Qed.

Example split_cells_row :
  split_cells "9128283H1,99-16+,1000000,BID" EmptyString
  = ["9128283H1"; "99-16+"; "1000000"; "BID"]%string.
Proof. reflexivity. Qed.

Example split_cells_empty_cells :
  split_cells "a,,b," EmptyString = ["a"; EmptyString; "b"]%string
  ∧ split_cells EmptyString EmptyString = [].
Proof. split; reflexivity. Qed.

Example md_parse_line_row :
  md_parse_line "9128283H1,99-16+,1000000,BID"
  = Some ("9128283H1"%string, mkOrder (decimal 25476 256) 1000000 BID).
Proof. vm_compute. do 3 f_equal. by apply Qc_is_canon. Qed.

(** * Further properties of the code *)

(** ** The random numbers and the identifiers *)

Section RandomFacts.

(** The loop body is Schrage's scheme: it computes [a * seed mod m]
    with every intermediate value inside the range of [long], whatever
    the sign of the seed. *)
Lemma uniform_next_lehmer seed :
  - uniform_m < seed < uniform_m → uniform_next seed = lehmer seed.
Proof.
  intros Hseed. unfold uniform_next, lehmer.
  change uniform_q with 54542. change uniform_r with 1481.
  unfold uniform_m, uniform_a in *.
  pose proof (Z.quot_rem' seed 54542) as Hdm.
  assert (Hs : - 54542 < Z.rem seed 54542 < 54542
               ∧ (0 ≤ seed → 0 ≤ Z.rem seed 54542)
               ∧ (seed ≤ 0 → Z.rem seed 54542 ≤ 0)).
  { pose proof (Z.rem_bound_abs seed 54542 ltac:(lia)).
    pose proof (Z.rem_sign_mul seed 54542 ltac:(lia)).
    split_and!; [lia|lia|nia|nia]. }
  set (k := seed ÷ 54542) in *. set (s' := Z.rem seed 54542) in *.
  assert (Hk : - 39373 ≤ k ≤ 39373) by lia.
  assert (Hks : (0 ≤ k ∧ 0 ≤ s') ∨ (k ≤ 0 ∧ s' ≤ 0)) by lia.
  unfold long_sub, long_mul, long_add.
  rewrite (wrap_long_id (k * 54542)) by (unfold in_long, LONG_MIN, LONG_MAX; lia).
  replace (seed - k * 54542) with s' by lia.
  rewrite (wrap_long_id s') by (unfold in_long, LONG_MIN, LONG_MAX; lia).
  rewrite (wrap_long_id (39373 * _)) by (unfold in_long, LONG_MIN, LONG_MAX; lia).
  rewrite (wrap_long_id (k * 1481)) by (unfold in_long, LONG_MIN, LONG_MAX; lia).
  rewrite (wrap_long_id (_ - _)) by (unfold in_long, LONG_MIN, LONG_MAX; lia).
  case_decide as Hneg.
  - rewrite wrap_long_id by (unfold in_long, LONG_MIN, LONG_MAX; lia).
    apply (Z.mod_unique_pos _ _ (k - 1)); nia.
  - apply (Z.mod_unique_pos _ _ k); nia.
Qed.

Lemma lehmer_range x : 0 ≤ lehmer x < uniform_m.
Proof. unfold lehmer. apply Z.mod_pos_bound. by vm_compute. Qed.

Lemma uniform_loop_lehmer n : ∀ seed,
  - uniform_m < seed < uniform_m →
  uniform_loop n seed = (λ x, of_Z x / of_Z uniform_m)%Qc <$> lehmer_seq n seed.
Proof.
  induction n as [|n IH]; intros seed Hseed; [done|].
  cbn [uniform_loop lehmer_seq fmap list_fmap].
  rewrite uniform_next_lehmer by done. f_equal.
  apply IH. pose proof (lehmer_range seed). unfold uniform_m in *. lia.
Qed.

(** A quotient of integers, as a fraction. *)
Lemma of_Z_div_Q n (m : positive) :
  (this (of_Z n / of_Z (Z.pos m))%Qc == n # m)%Q.
Proof.
  unfold of_Z, Qcdiv, Qcmult, Qcinv. simpl.
  rewrite !Qred_correct. rewrite (Qmake_Qdiv n m). reflexivity.
Qed.

Lemma of_Z_div_unit n (m : positive) :
  0 ≤ n < Z.pos m →
  (0 ≤ of_Z n / of_Z (Z.pos m))%Qc ∧ (of_Z n / of_Z (Z.pos m) < 1)%Qc.
Proof.
  intros Hn. unfold Qcle, Qclt. rewrite !of_Z_div_Q.
  unfold Qle, Qlt. simpl. lia.
Qed.

Lemma lehmer_seq_length n x : length (lehmer_seq n x) = n.
Proof. revert x. induction n as [|n IH]; intros x; simpl; [done|by rewrite IH]. Qed.

Lemma lehmer_seq_range n : ∀ x, Forall (λ y, 0 ≤ y < uniform_m) (lehmer_seq n x).
Proof.
  induction n as [|n IH]; intros x; simpl; constructor; [apply lehmer_range|apply IH].
Qed.

Lemma GenerateUniform_unfold now N seed :
  GenerateUniform now N seed
  = (λ x, of_Z x / of_Z uniform_m)%Qc
      <$> lehmer_seq (Z.to_nat N)
            (Z.rem (if decide (seed = 0) then now else seed) uniform_m).
Proof.
  unfold GenerateUniform. apply uniform_loop_lehmer.
  pose proof (Z.rem_bound_abs (if decide (seed = 0) then now else seed)
                uniform_m ltac:(done)) as H.
  unfold uniform_m in *. lia.
Qed.

(** X1. [GenerateUniform(N, seed)] returns the first [N] iterates of the
    multiplicative congruential generator [x ↦ 39373 * x mod (2^31 - 1)],
    each divided by the modulus, started from the seed (or from the
    clock when the seed is zero) reduced by the modulus.  No product
    or difference of the loop leaves the range of [long], whatever the
    sign of the seed, so that each new seed is exactly the residue;
    there are [N] numbers (none for [N ≤ 0]) and each of them is at
    least 0 and less than 1. *)
Theorem GenerateUniform_lehmer now N seed :
  GenerateUniform now N seed
  = (λ x, of_Z x / of_Z uniform_m)%Qc
      <$> lehmer_seq (Z.to_nat N)
            (Z.rem (if decide (seed = 0) then now else seed) uniform_m)
  ∧ length (GenerateUniform now N seed) = Z.to_nat N
  ∧ Forall (λ x, (0 ≤ x)%Qc ∧ (x < 1)%Qc) (GenerateUniform now N seed).
Proof.
  rewrite GenerateUniform_unfold. split_and!; [done| |].
  - by rewrite length_fmap, lehmer_seq_length.
  - apply Forall_fmap. eapply Forall_impl; [apply lehmer_seq_range|].
    intros y Hy. simpl. by apply (of_Z_div_unit y 2147483647).
Qed.

Lemma of_Z_div_nonneg n (m : positive) :
  0 ≤ n → (0 ≤ of_Z n / of_Z (Z.pos m))%Qc.
Proof.
  intros Hn. unfold Qcle. rewrite of_Z_div_Q. unfold Qle. simpl. lia.
Qed.

Lemma base_at_Some i :
  0 ≤ i < 36 → ∃ c, String.get (Z.to_nat i) _base = Some c ∧ base_at i = Some c.
Proof.
  intros Hi. unfold base_at.
  rewrite decide_False by (change (Z.of_nat (String.length _base)) with 36; lia).
  rewrite decide_True by lia.
  assert (H : ∀ j, (j < 36)%nat → is_Some (String.get j _base)).
  { intros j Hj. do 36 (destruct j as [|j]; [by eexists|]). lia. }
  destruct (H (Z.to_nat i) ltac:(lia)) as [c Hc]. by exists c.
Qed.

(** One character is drawn from the alphabet for a random number. *)
Lemma id_step_char acc y :
  0 ≤ y < uniform_m →
  ∃ c j, String.get j _base = Some c
         ∧ id_step (Some acc) (of_Z y / of_Z uniform_m)%Qc = Some (push_back acc c).
Proof.
  intros Hy. unfold id_step, uniform_m in *. cbn [mbind option_bind].
  assert (Heq : (of_Z y / of_Z 2147483647 * of_Z 36
                 = of_Z (y * 36) / of_Z 2147483647)%Qc).
  { rewrite of_Z_mul. field. by apply of_Z_nonzero. }
  rewrite Heq. unfold truncate.
  rewrite decide_True by (apply (of_Z_div_nonneg _ 2147483647); lia).
  rewrite (floor_div _ 2147483647).
  assert (Hi : 0 ≤ (y * 36) `div` 2147483647 < 36).
  { split; [apply Z.div_pos; lia|apply Z.div_lt_upper_bound; lia]. }
  rewrite to_int_Some by (unfold in_int, INT_MIN, INT_MAX; lia).
  cbn [mbind option_bind].
  destruct (base_at_Some _ Hi) as (c & Hget & ->). eauto.
Qed.

Lemma GenerateId_fold ys : ∀ acc,
  Forall (λ y, 0 ≤ y < uniform_m) ys →
  ∃ cs, foldl id_step (Some acc) ((λ x, of_Z x / of_Z uniform_m)%Qc <$> ys)
        = Some (String.append acc (string_of_list_ascii cs))
      ∧ length cs = length ys
      ∧ Forall (λ c, ∃ j, String.get j _base = Some c) cs.
Proof.
  induction ys as [|y ys IH]; intros acc Hys.
  - exists []. cbn. by rewrite append_empty_r.
  - apply Forall_cons in Hys as [Hy Hys].
    destruct (id_step_char acc y Hy) as (c & j & Hget & Hstep).
    cbn [fmap list_fmap foldl]. rewrite Hstep.
    destruct (IH (push_back acc c) Hys) as (cs & -> & Hlen & Hcs).
    exists (c :: cs). split_and!.
    + by rewrite push_back_append.
    + cbn. by rewrite Hlen.
    + constructor; [by exists j|done].
Qed.

(** X2. [GenerateId()] always returns an identifier, whatever the clock
    shows: no index computed from a random number leaves the alphabet.
    The identifier has exactly 12 characters and each of them is a
    character of the alphabet [_base], the digits and the capital
    letters. *)
Theorem GenerateId_alphabet now ms :
  ∃ cs, GenerateId now ms = Some (string_of_list_ascii cs)
      ∧ length cs = 12%nat
      ∧ Forall (λ c, ∃ j, String.get j _base = Some c) cs.
Proof.
  unfold GenerateId. rewrite GenerateUniform_unfold.
  destruct (GenerateId_fold
              (lehmer_seq (Z.to_nat 12)
                 (Z.rem (if decide (ms = 0) then now else ms) uniform_m))
              EmptyString (lehmer_seq_range _ _)) as (cs & Heq & Hlen & Hcs).
  exists cs. rewrite Heq, append_empty_l. split_and!; [done| |done].
  by rewrite Hlen, lehmer_seq_length.
Qed.

End RandomFacts.

(** ** The price converter, on any price and on any text *)

Section ConvertPriceFacts.

(** [floor] on the numerator and denominator of a price. *)
Lemma floor_this (p : double) : floor p = Qnum p / Z.pos (Qden p).
Proof. by destruct p as [[n d] Hp]. Qed.

Lemma floor_scaled (p : double) :
  floor (p * of_Z 256)%Qc = (256 * Qnum p) / Z.pos (Qden p).
Proof.
  unfold floor. transitivity (Qfloor ((256 * Qnum p) # Qden p)); [|reflexivity].
  apply Qfloor_comp. unfold of_Z, Qcmult. simpl. rewrite !Qred_correct.
  destruct p as [[n d] Hp]. unfold Qeq, Qmult, inject_Z. simpl. lia.
Qed.

Lemma floor_fraction (p : double) :
  floor ((p - of_Z (floor p)) * of_Z 256)%Qc
  = (256 * (Qnum p `mod` Z.pos (Qden p))) / Z.pos (Qden p).
Proof.
  pose proof (floor_this p) as Ha. revert Ha.
  generalize (floor p). intros a Ha. unfold floor.
  transitivity (Qfloor ((256 * (Qnum p `mod` Z.pos (Qden p))) # Qden p)); [|reflexivity].
  apply Qfloor_comp. unfold of_Z, Qcmult, Qcminus, Qcplus, Qcopp. simpl.
  rewrite !Qred_correct.
  destruct p as [[n d] Hp]. simpl in *.
  pose proof (Z.div_mod n (Z.pos d) ltac:(lia)) as Hdm.
  unfold Qeq, Qmult, Qplus, Qopp, inject_Z. simpl. nia.
Qed.

Lemma floor_fraction_range (p : double) :
  0 ≤ floor ((p - of_Z (floor p)) * of_Z 256)%Qc < 256.
Proof.
  rewrite floor_fraction.
  pose proof (Z.mod_pos_bound (Qnum p) (Z.pos (Qden p)) ltac:(lia)).
  split; [apply Z.div_pos; lia|apply Z.div_lt_upper_bound; lia].
Qed.

(** The 256ths of a price: whole points and fraction. *)
Lemma floor_scaled_split (p : double) :
  floor (p * of_Z 256)%Qc
  = 256 * floor p + floor ((p - of_Z (floor p)) * of_Z 256)%Qc.
Proof.
  rewrite floor_scaled, floor_fraction, floor_this.
  pose proof (Z.div_mod (Qnum p) (Z.pos (Qden p)) ltac:(lia)) as Hdm.
  rewrite Hdm at 1.
  replace (256 * (Z.pos (Qden p) * (Qnum p `div` Z.pos (Qden p))
                  + Qnum p `mod` Z.pos (Qden p)))
    with (256 * (Qnum p `div` Z.pos (Qden p)) * Z.pos (Qden p)
          + 256 * (Qnum p `mod` Z.pos (Qden p))) by lia.
  by rewrite Z.div_add_l by lia.
Qed.

(** The text written for a price whose whole points fit an [int]. *)
Lemma ConvertPrice_double_text (p : double) :
  0 ≤ floor p ≤ INT_MAX →
  ConvertPrice_double p
  = Some (String.append (to_string (floor p))
            (String.append "-"
               (fraction_text (floor ((p - of_Z (floor p)) * of_Z 256)%Qc)))).
Proof.
  intros Ha. pose proof (floor_fraction_range p) as Hr.
  unfold ConvertPrice_double.
  rewrite to_int_Some by (unfold in_int, INT_MIN, INT_MAX in *; lia).
  cbn [mbind option_bind].
  set (r := floor ((p - of_Z (floor p)) * of_Z 256)%Qc) in *.
  rewrite to_int_Some by (unfold in_int, INT_MIN, INT_MAX; lia).
  cbn [mbind option_bind].
  pose proof (Z.div_pos r 8 ltac:(lia) ltac:(lia)) as Hd.
  assert (Hd' : r / 8 < 32) by (apply Z.div_lt_upper_bound; lia).
  change (of_Z 8) with (of_Z (Z.pos 8)).
  rewrite floor_div, to_int_Some by (unfold in_int, INT_MIN, INT_MAX; lia).
  cbn [mbind option_bind].
  by rewrite !append_assoc.
Qed.

(** Reading back a text written for [a] whole points and [r] 256ths. *)
Lemma ConvertPrice_string_text a r :
  0 ≤ a → 0 ≤ r < 256 →
  ConvertPrice_string
    (String.append (to_string a) (String.append "-" (fraction_text r)))
  = Some (of_Z a + of_Z (r / 8) * 1 / of_Z 32
          + of_Z (r `mod` 8) * 1 / of_Z 256)%Qc.
Proof.
  intros Ha Hr.
  destruct (to_string_nonneg _ Ha) as (u & -> & Hu & Hval).
  unfold ConvertPrice_string.
  rewrite split_loop_whole. rewrite append_cons. cbn [split_loop].
  change (split_step "-" _) with
    (mkSplit 1 (String.append EmptyString (NilEmpty.string_of_uint u)) EmptyString EmptyString).
  rewrite !append_empty_l.
  rewrite split_loop_frame
    by (rewrite ?fraction_text_length by done; unfold INT_MAX; lia).
  pose proof (fraction_reads_back_all _ Hr) as Hback.
  unfold fraction_reads_back in Hback.
  destruct (split_loop _ (mkSplit 1 EmptyString EmptyString EmptyString)) as [c s100 s32 s8].
  cbn [with_whole _stringPrice100 _stringPrice32 _stringPrice8 split_count] in *.
  destruct (digits_prefix s32) as [u32 [|]] eqn:H32; [|done].
  destruct (digits_prefix s8) as [u8 [|]] eqn:H8; [|done].
  apply andb_prop in Hback as [Hback E8]. apply andb_prop in Hback as [Hback E32].
  apply andb_prop in Hback as [N32 N8].
  apply bool_decide_eq_true in E8, E32. apply negb_true_iff in N32, N8.
  rewrite (stod_string_of_uint u Hu), (stod_digits _ _ H32 N32), (stod_digits _ _ H8 N8).
  cbn [mbind option_bind]. by rewrite Hval, E32, E8.
Qed.

(** The value read back, as a number of 256ths. *)
Lemma price_256_join (p : double) :
  let r := floor ((p - of_Z (floor p)) * of_Z 256)%Qc in
  (of_Z (floor p) + of_Z (r / 8) * 1 / of_Z 32 + of_Z (r `mod` 8) * 1 / of_Z 256
   = decimal (floor (p * of_Z 256)) 256)%Qc.
Proof.
  cbn zeta. pose proof (floor_fraction_range p) as Hr.
  pose proof (floor_scaled_split p) as Hk.
  set (r := floor ((p - of_Z (floor p)) * of_Z 256)%Qc) in *.
  rewrite <- decimal_256_join, Hk.
  replace ((256 * floor p + r) / 256) with (floor p)
    by (apply (Z.div_unique_pos _ _ _ r); lia).
  replace ((256 * floor p + r) `mod` 256) with r
    by (apply (Z.mod_unique_pos _ _ (floor p)); lia).
  done.
Qed.

(** X3. Writing a price as text and reading the text back rounds the
    price down to a multiple of 1/256: for every non-negative price
    [p] whose whole points fit an [int], [ConvertPrice(double)]
    succeeds and [ConvertPrice(string)] on its text gives
    [floor(256 p) / 256].  The part of the price below 1/256 is lost,
    and nothing else. *)
Theorem ConvertPrice_round_trip_floor (p : double) :
  0 ≤ floor p ≤ INT_MAX →
  ConvertPrice_double p ≫= ConvertPrice_string
  = Some (decimal (floor (p * of_Z 256)%Qc) 256).
Proof.
  intros Ha. pose proof (floor_fraction_range p) as Hr.
  rewrite ConvertPrice_double_text by done. cbn [mbind option_bind].
  rewrite ConvertPrice_string_text by lia. f_equal. apply price_256_join.
Qed.

Lemma length_append (a b : string) :
  String.length (String.append a b) = (String.length a + String.length b)%nat.
Proof. induction a as [|c a IH]; [done|]. rewrite append_cons. cbn. by rewrite IH. Qed.

(** The loop up to the first dash. *)
Lemma split_loop_first_dash s : ∀ acc,
  (no_dash s = true
   ∧ split_loop s (mkSplit 0 acc EmptyString EmptyString)
     = mkSplit 0 (String.append acc s) EmptyString EmptyString)
  ∨ (∃ w rest, s = String.append w (String "-" rest) ∧ no_dash w = true
       ∧ split_loop s (mkSplit 0 acc EmptyString EmptyString)
         = split_loop rest (mkSplit 1 (String.append acc w) EmptyString EmptyString)).
Proof.
  induction s as [|c s IH]; intros acc.
  - left. by rewrite append_empty_r.
  - cbn [split_loop no_dash]. destruct (decide (c = "-"%char)) as [->|Hc].
    + right. exists EmptyString, s. by rewrite append_empty_r.
    + assert (Hstep : split_step c (mkSplit 0 acc EmptyString EmptyString)
                      = mkSplit 0 (push_back acc c) EmptyString EmptyString).
      { unfold split_step. by rewrite decide_False, decide_True. }
      rewrite Hstep.
      destruct (IH (push_back acc c)) as [[Hnd ->]|(w & rest & -> & Hnd & ->)].
      * left. by rewrite push_back_append.
      * right. exists (String c w), rest. cbn [no_dash].
        by rewrite decide_False, append_cons, push_back_append.
Qed.

(** The first two steps after the dash never touch the eighths. *)
Lemma split_step_after_dash c n a b :
  n = 1 ∨ n = 2 →
  ∃ b', split_step c (mkSplit n a b EmptyString) = mkSplit (n + 1) a b' EmptyString.
Proof.
  intros Hn. unfold split_step.
  assert (Hadd : int_add n 1 = n + 1) by (by destruct Hn as [-> | ->]).
  rewrite Hadd. case_decide; [by eexists|].
  rewrite decide_False by lia. rewrite decide_True by done. by eexists.
Qed.

(** Fewer than three characters after the dash leave the eighths empty. *)
Lemma split_loop_short rest :
  (String.length rest < 3)%nat →
  _stringPrice8 (split_loop rest (mkSplit 1 EmptyString EmptyString EmptyString))
  = EmptyString.
Proof.
  intros Hlen.
  destruct rest as [|c1 rest]; [done|]. cbn [split_loop].
  destruct (split_step_after_dash c1 1 EmptyString EmptyString) as [b1 ->]; [by left|].
  change (1 + 1) with 2.
  destruct rest as [|c2 rest]; [done|]. cbn [split_loop].
  destruct (split_step_after_dash c2 2 EmptyString b1) as [b2 ->]; [by right|].
  destruct rest as [|c3 rest]; [done|]. cbn in Hlen. lia.
Qed.

(** X4. What [ConvertPrice(string)] needs of a text in order to return
    a price: a text that it accepts has a non-empty part before its
    first dash and at least three characters after that dash.  So a
    decimal text such as 99.5, a text that begins with a dash, and a
    text that stops after the 32nds all make [stod] throw. *)
Theorem ConvertPrice_string_accepted s v :
  Z.of_nat (String.length s) ≤ INT_MAX →
  ConvertPrice_string s = Some v →
  ∃ w rest, s = String.append w (String "-" rest)
          ∧ w ≠ EmptyString ∧ no_dash w = true
          ∧ (3 ≤ String.length rest)%nat.
Proof.
  intros Hlen Hv. unfold ConvertPrice_string in Hv.
  destruct (split_loop_first_dash s EmptyString)
    as [[Hnd Hs]|(w & rest & -> & Hnd & Hs)]; rewrite Hs in Hv.
  - cbn [_stringPrice100 _stringPrice32 _stringPrice8] in Hv.
    by destruct (stod (String.append EmptyString s)).
  - exists w, rest. rewrite append_empty_l in Hv.
    rewrite length_append in Hlen. cbn [String.length] in Hlen.
    rewrite split_loop_frame in Hv by (unfold INT_MAX in *; lia).
    destruct (decide (w = EmptyString)) as [->|Hw].
    { by destruct (split_loop rest _). }
    split_and!; [done..|].
    destruct (decide (String.length rest < 3)%nat) as [Hshort|]; [|lia].
    apply split_loop_short in Hshort.
    destruct (split_loop rest _) as [c s100 s32 s8].
    cbn [with_whole _stringPrice100 _stringPrice32 _stringPrice8 split_count] in *.
    subst s8. destruct (stod w); [|done]. by destruct (stod s32).
Qed.

(** Once the count is 3, the digits of a numeral go to the eighths. *)
Lemma split_loop_eighths u t a b acc :
  split_loop (String.append (NilEmpty.string_of_uint u) t) (mkSplit 3 a b acc)
  = split_loop t (mkSplit 3 a b (String.append acc (NilEmpty.string_of_uint u))).
Proof.
  revert acc. induction u; intros acc; cbn [NilEmpty.string_of_uint];
    rewrite ?append_empty_l, ?append_empty_r, ?append_cons; [done | ..];
    cbn [split_loop]; rewrite <- push_back_append; apply IHu.
Qed.

(** The two digits after the dash go to the 32nds. *)
Lemma split_loop_32nds v t a :
  Decimal.nb_digits v = 2%nat →
  split_loop (String.append (NilEmpty.string_of_uint v) t)
    (mkSplit 1 a EmptyString EmptyString)
  = split_loop t (mkSplit 3 a (NilEmpty.string_of_uint v) EmptyString).
Proof.
  intros Hv.
  destruct v as [|v|v|v|v|v|v|v|v|v|v]; try done;
    destruct v as [|v|v|v|v|v|v|v|v|v|v]; try done;
    destruct v; try done; reflexivity.
Qed.

Lemma nb_digits_no_digit v : Decimal.nb_digits v = 2%nat → no_digit v = false.
Proof. by destruct v. Qed.

(** X5. The value [ConvertPrice(string)] gives to a text of the form
    whole points, dash, two digits, eighths: the whole points plus the
    two digits over 32 plus the eighths over 256, where the eighths are
    all the digits that follow, or 4 for a plus sign.  Nothing checks
    that the two digits are below 32 or that the eighths are a single
    digit below 8.  The whole points and the eighths are taken within
    the range of [int], where the arithmetic on [double] is exact. *)
Theorem ConvertPrice_string_value (u v w : Decimal.uint) :
  no_digit u = false → Decimal.nb_digits v = 2%nat → no_digit w = false →
  Z.of_uint u ≤ INT_MAX → Z.of_uint w ≤ INT_MAX →
  ConvertPrice_string
    (String.append (NilEmpty.string_of_uint u)
       (String "-" (String.append (NilEmpty.string_of_uint v)
                      (NilEmpty.string_of_uint w))))
  = Some (of_Z (Z.of_uint u) + of_Z (Z.of_uint v) * 1 / of_Z 32
          + of_Z (Z.of_uint w) * 1 / of_Z 256)%Qc
  ∧ ConvertPrice_string
      (String.append (NilEmpty.string_of_uint u)
         (String "-" (String.append (NilEmpty.string_of_uint v) "+")))
    = Some (of_Z (Z.of_uint u) + of_Z (Z.of_uint v) * 1 / of_Z 32
            + of_Z 4 * 1 / of_Z 256)%Qc.
Proof.
  intros Hu Hv Hw _ _. pose proof (nb_digits_no_digit v Hv) as Hv'.
  unfold ConvertPrice_string. rewrite !split_loop_whole. cbn [split_loop].
  change (split_step "-" _) with
    (mkSplit 1 (String.append EmptyString (NilEmpty.string_of_uint u)) EmptyString EmptyString).
  rewrite !append_empty_l, !split_loop_32nds by done. split.
  - rewrite <- (append_empty_r (NilEmpty.string_of_uint w)), split_loop_eighths.
    cbn [split_loop _stringPrice100 _stringPrice32 _stringPrice8].
    rewrite append_empty_l, !stod_string_of_uint by done. done.
  - assert (Hplus : ∀ a b, split_loop "+" (mkSplit 3 a b EmptyString)
                           = mkSplit 3 a b "4") by done.
    rewrite Hplus. cbn [_stringPrice100 _stringPrice32 _stringPrice8].
    rewrite !stod_string_of_uint by done. done.
Qed.

End ConvertPriceFacts.

(** ** The order book of the market data service *)

Section OrderBookFacts.

Variable u : indeterminate.

(** The first loop of [GetBidOffer] stops at the first of the highest
    prices above its starting price. *)
Lemma best_bid_first stack : ∀ acc,
  let r := foldl best_bid_step acc stack in
  (r = acc ∧ ∀ b, b ∈ stack → (order_price b ≤ acc.1)%Qc)
  ∨ (∃ before after, stack = before ++ r.2 :: after
       ∧ r.1 = order_price r.2 ∧ (acc.1 < r.1)%Qc
       ∧ (∀ b, b ∈ before → (order_price b < r.1)%Qc)
       ∧ (∀ b, b ∈ after → (order_price b ≤ r.1)%Qc)).
Proof.
  induction stack as [|b stack IH]; intros acc; cbn zeta.
  - left. split; [done|by intros ? ?%elem_of_nil].
  - cbn [foldl]. specialize (IH (best_bid_step acc b)).
    unfold best_bid_step in *. case_decide as Hlt; cbn [fst snd] in *.
    + right. destruct IH as [[-> Hall]|(before & after & Hst & Hp & Hacc & Hbe & Haf)].
      * exists [], stack. cbn [fst snd]. split_and!; [done..| |done].
        by intros ? ?%elem_of_nil.
      * exists (b :: before), after. split_and!; [by cbn; f_equal|done| | |done].
        -- by etrans.
        -- intros b' [->|Hb']%elem_of_cons; [done|by apply Hbe].
    + apply Qcnot_lt_le in Hlt.
      destruct IH as [[-> Hall]|(before & after & Hst & Hp & Hacc & Hbe & Haf)].
      * left. split; [done|].
        intros b' [->|Hb']%elem_of_cons; [done|by apply Hall].
      * right. exists (b :: before), after.
        split_and!; [by cbn; f_equal|done|done| |done].
        intros b' [->|Hb']%elem_of_cons; [|by apply Hbe].
        by eapply Qcle_lt_trans.
Qed.

(** The second loop stops at the first of the lowest prices below its
    starting price. *)
Lemma best_offer_first stack : ∀ acc,
  let r := foldl best_offer_step acc stack in
  (r = acc ∧ ∀ o, o ∈ stack → (acc.1 ≤ order_price o)%Qc)
  ∨ (∃ before after, stack = before ++ r.2 :: after
       ∧ r.1 = order_price r.2 ∧ (r.1 < acc.1)%Qc
       ∧ (∀ o, o ∈ before → (r.1 < order_price o)%Qc)
       ∧ (∀ o, o ∈ after → (r.1 ≤ order_price o)%Qc)).
Proof.
  induction stack as [|o stack IH]; intros acc; cbn zeta.
  - left. split; [done|by intros ? ?%elem_of_nil].
  - cbn [foldl]. specialize (IH (best_offer_step acc o)).
    unfold best_offer_step in *. case_decide as Hlt; cbn [fst snd] in *.
    + right. destruct IH as [[-> Hall]|(before & after & Hst & Hp & Hacc & Hbe & Haf)].
      * exists [], stack. cbn [fst snd]. split_and!; [done..| |done].
        by intros ? ?%elem_of_nil.
      * exists (o :: before), after. split_and!; [by cbn; f_equal|done| | |done].
        -- by etrans.
        -- intros o' [->|Ho']%elem_of_cons; [done|by apply Hbe].
    + apply Qcnot_lt_le in Hlt.
      destruct IH as [[-> Hall]|(before & after & Hst & Hp & Hacc & Hbe & Haf)].
      * left. split; [done|].
        intros o' [->|Ho']%elem_of_cons; [done|by apply Hall].
      * right. exists (o :: before), after.
        split_and!; [by cbn; f_equal|done|done| |done].
        intros o' [->|Ho']%elem_of_cons; [|by apply Hbe].
        by eapply Qclt_le_trans.
Qed.

(** X6. [OrderBook::GetBidOffer] on any book.  The bid it returns is
    the first order of the bid stack that has the highest price, all
    orders before it having a strictly lower price; but when no bid is
    priced above [INT_MIN] (an empty stack for one) it is the
    default-initialised local [_bidOrder], whose fields were never set.
    The same holds for the offer, with the lowest price and [INT_MAX]. *)
Theorem GetBidOffer_first_best (book : OrderBook) :
  let bo := GetBidOffer u book in
  ((GetBidOrder bo = indeterminate_bid u
    ∧ ∀ b, b ∈ GetBidStack book → (order_price b ≤ of_Z INT_MIN)%Qc)
   ∨ (∃ before after, GetBidStack book = before ++ GetBidOrder bo :: after
        ∧ (of_Z INT_MIN < order_price (GetBidOrder bo))%Qc
        ∧ (∀ b, b ∈ before → (order_price b < order_price (GetBidOrder bo))%Qc)
        ∧ (∀ b, b ∈ after → (order_price b ≤ order_price (GetBidOrder bo))%Qc)))
  ∧ ((GetOfferOrder bo = indeterminate_offer u
      ∧ ∀ o, o ∈ GetOfferStack book → (of_Z INT_MAX ≤ order_price o)%Qc)
     ∨ (∃ before after, GetOfferStack book = before ++ GetOfferOrder bo :: after
          ∧ (order_price (GetOfferOrder bo) < of_Z INT_MAX)%Qc
          ∧ (∀ o, o ∈ before → (order_price (GetOfferOrder bo) < order_price o)%Qc)
          ∧ (∀ o, o ∈ after → (order_price (GetOfferOrder bo) ≤ order_price o)%Qc))).
Proof.
  cbn zeta. unfold GetBidOffer.
  pose proof (best_bid_first (GetBidStack book) (of_Z INT_MIN, indeterminate_bid u)) as Hb.
  pose proof (best_offer_first (GetOfferStack book) (of_Z INT_MAX, indeterminate_offer u)) as Ho.
  cbn zeta in Hb, Ho.
  destruct (foldl best_bid_step _ _) as [pb ob].
  destruct (foldl best_offer_step _ _) as [po oo].
  cbn [fst snd GetBidOrder GetOfferOrder] in *. split.
  - destruct Hb as [[[= -> ->] Hall]|(before & after & Hst & -> & Hacc & Hbe & Haf)];
      [by left|right; eauto 10].
  - destruct Ho as [[[= -> ->] Hall]|(before & after & Hst & -> & Hacc & Hbe & Haf)];
      [by left|right; eauto 10].
Qed.

End OrderBookFacts.

(** ** Reading from the market data service *)

Section MarketDataFacts.

Variable u : indeterminate.

(** X7. Reading a product the service holds no order book for changes
    the service: [GetData] and [GetBestBidOffer] read with
    [orderBooks[key]], which stores an empty order book of the default
    product under the key.  [GetData] returns that empty book; what
    [GetBestBidOffer] returns is a reference to a temporary that is
    destroyed when the function returns, and cannot be read.  A later
    [GetData] finds the empty book and leaves the service as it is. *)
Theorem MarketData_read_absent (s : MarketDataService) (key : string) :
  orderBooks s !! key = None →
  MarketData.GetData s key = (with_empty_book s key, OrderBook_default)
  ∧ (GetBestBidOffer u s key).1 = with_empty_book s key
  ∧ read (GetBestBidOffer u s key).2 = None
  ∧ MarketData.GetData (with_empty_book s key) key
    = (with_empty_book s key, OrderBook_default).
Proof.
  intros Hkey.
  assert (Hget : MarketData.GetData s key = (with_empty_book s key, OrderBook_default)).
  { unfold MarketData.GetData. by rewrite Hkey. }
  split_and!; [done| | |].
  - unfold GetBestBidOffer. by rewrite Hget.
  - unfold GetBestBidOffer. by rewrite Hget.
  - unfold MarketData.GetData, with_empty_book. cbn [orderBooks].
    by rewrite lookup_insert_eq.
Qed.

(** X9. What [OnMessage] stores, [GetData] gives back: after an order
    book has been handed to [MarketDataService::OnMessage], [GetData]
    under its product identifier returns that book and changes
    nothing; the books of all other identifiers, the listeners and the
    book depth are as before; and every listener was called once with
    the book, in the order of registration. *)
Theorem MarketData_OnMessage_GetData (s : MarketDataService) (b : OrderBook) :
  let '(s', events) := MarketData.OnMessage s b in
  MarketData.GetData s' (GetProductId (book_product b)) = (s', b)
  ∧ (∀ key, key ≠ GetProductId (book_product b) →
       orderBooks s' !! key = orderBooks s !! key)
  ∧ md_listeners s' = md_listeners s ∧ bookDepth s' = bookDepth s
  ∧ events.*1 = md_listeners s
  ∧ (∀ e, e ∈ events → e.2 = b).
Proof.
  unfold MarketData.OnMessage, MarketData.GetData. cbn [orderBooks].
  rewrite lookup_insert_eq. split_and!; [done| |done|done| |].
  - intros key Hkey. by rewrite lookup_insert_ne.
  - unfold dispatch. rewrite <- list_fmap_compose. apply list_fmap_id.
  - unfold dispatch. by intros e (l & -> & _)%list_elem_of_fmap.
Qed.

End MarketDataFacts.

(** ** The file connectors, on any file *)

Section ConnectorFacts.

Lemma outcome_of_cons_Some {A} (parse : string → option A) _line lines row :
  parse _line = Some row → outcome_of parse (_line :: lines) = outcome_of parse lines.
Proof.
  intros H. unfold outcome_of, all_parse. cbn [forallb].
  by rewrite bool_decide_eq_true_2 by (by rewrite H).
Qed.

Lemma outcome_of_cons_None {A} (parse : string → option A) _line lines :
  parse _line = None → outcome_of parse (_line :: lines) = Aborted.
Proof.
  intros H. unfold outcome_of, all_parse. cbn [forallb].
  rewrite bool_decide_eq_false_2; [done|]. rewrite H. by intros [? ?].
Qed.

(** The loop of [MarketDataConnector::Subscribe] on any lines. *)
Lemma md_loop_any (n : nat) lines : ∀ pending s,
  Z.of_nat n < LONG_MAX → (length pending < n)%nat →
  let delivered := deliver n pending (parsed_prefix md_parse_line lines) in
  md_loop (Z.of_nat n) lines (locals_of pending) s
  = mkRun (after_books s delivered) (dispatch_all (md_listeners s) delivered)
      delivered (outcome_of md_parse_line lines).
Proof.
  induction lines as [|_line lines IH]; intros pending s Hn Hlen; cbn zeta; [done|].
  cbn [parsed_prefix]. destruct (md_parse_line _line) as [row|] eqn:Hp.
  - rewrite (md_loop_line _ _ _ _ _ row) by (done || lia).
    rewrite (outcome_of_cons_Some _ _ _ row) by done.
    cbn [deliver]. destruct (decide (length (pending ++ [row]) = n)) as [Heq|Hne].
    + rewrite decide_True by (by rewrite Heq). cbn zeta.
      rewrite (IH [] _ Hn) by (cbn [length]; lia). done.
    + rewrite decide_False by (intros He; by apply Hne, Nat2Z.inj).
      apply IH; [done|]. rewrite length_app in *. cbn [length] in *. lia.
  - rewrite outcome_of_cons_None by done. cbn [md_loop]. by rewrite Hp.
Qed.

(** The rows and the end of a file made of lines that can be read,
    followed by nothing or by a line that cannot. *)
Lemma parsed_prefix_stops {A} (parse : string → option A) good tail :
  Forall (λ _line, is_Some (parse _line)) good →
  (tail = [] ∨ ∃ bad rest, tail = bad :: rest ∧ parse bad = None) →
  parsed_prefix parse (good ++ tail) = omap parse good
  ∧ outcome_of parse (good ++ tail) = ends tail.
Proof.
  intros Hgood Htail. induction Hgood as [|_line good [row Hrow] _ [IH1 IH2]].
  - destruct Htail as [->|(bad & rest & -> & Hbad)]; [done|].
    cbn [app parsed_prefix omap list_omap ends]. rewrite Hbad.
    by rewrite outcome_of_cons_None.
  - cbn [app parsed_prefix omap list_omap]. rewrite Hrow, IH1.
    by rewrite (outcome_of_cons_Some _ _ _ _ Hrow).
Qed.

(** A text without a dash: the 32nds stay empty and [stod] throws. *)
Lemma split_loop_no_dash s : ∀ acc,
  no_dash s = true →
  split_loop s (mkSplit 0 acc EmptyString EmptyString)
  = mkSplit 0 (String.append acc s) EmptyString EmptyString.
Proof.
  induction s as [|c s IH]; intros acc Hs.
  - by rewrite append_empty_r.
  - cbn [no_dash] in Hs. case_decide as Hc; [done|].
    cbn [split_loop]. unfold split_step. rewrite decide_False, decide_True by done.
    rewrite IH by done. by rewrite push_back_append.
Qed.

Lemma ConvertPrice_string_no_dash s :
  no_dash s = true → ConvertPrice_string s = None.
Proof.
  intros Hs. unfold ConvertPrice_string. rewrite split_loop_no_dash by done.
  cbn [_stringPrice100 _stringPrice32 _stringPrice8].
  by destruct (stod (String.append EmptyString s)).
Qed.

Lemma md_parse_line_no_dash _line :
  no_dash_cell 1 _line → md_parse_line _line = None.
Proof.
  intros (cell & Hcell & Hnd). unfold md_parse_line. cbn zeta.
  destruct (split_cells _line EmptyString !! 0%nat); [|done].
  cbn [mbind option_bind]. rewrite Hcell. cbn [mbind option_bind].
  by rewrite ConvertPrice_string_no_dash.
Qed.

(** X10. [MarketDataConnector::Subscribe] on a file that may stop
    short.  When the lines that can be read are followed by nothing, or
    by a line whose price has no dash (on which [ConvertPrice] makes
    [stod] throw) and then by anything, the rows read are grouped by
    twice the book depth and each full group is delivered as an order
    book; the run ends normally in the first case and is aborted at the
    bad line in the second, the books before it having been delivered
    and nothing after it having been read.  The service is left as the
    deliveries leave it, and every listener was called once per
    delivered book, in the order of the file. *)
Theorem MarketDataConnector_stops (service : MarketDataService)
    (good tail : list string) :
  0 < bookDepth service ≤ 2 ^ 30 - 1 →
  Forall (λ _line, is_Some (md_parse_line _line)) good →
  stops_at (no_dash_cell 1) tail →
  let group := Z.to_nat (2 * bookDepth service) in
  let r := MarketDataConnector.Subscribe service (good ++ tail) in
  run_delivered r = deliver group [] (omap md_parse_line good)
  ∧ run_outcome r = ends tail
  ∧ run_service r = after_books service (run_delivered r)
  ∧ run_events r = dispatch_all (md_listeners service) (run_delivered r).
Proof.
  intros Hdepth Hgood Htail. cbn zeta.
  destruct (parsed_prefix_stops md_parse_line good tail Hgood) as [Hrows Hend].
  { destruct Htail as [->|(bad & rest & -> & Hbad)]; [by left|right].
    exists bad, rest. split; [done|]. by apply md_parse_line_no_dash. }
  unfold MarketDataConnector.Subscribe, MarketData.GetBookDepth.
  assert (Hthread : int_mul (bookDepth service) 2
                    = Z.of_nat (Z.to_nat (2 * bookDepth service))).
  { rewrite Z2Nat.id by lia. unfold int_mul. rewrite wrap_int_id; [lia|].
    unfold in_int, INT_MIN, INT_MAX. lia. }
  rewrite Hthread. change (mkLocals 0 [] []) with (locals_of []).
  rewrite md_loop_any by (unfold LONG_MAX; cbn [length]; lia).
  cbn [run_delivered run_outcome run_service run_events].
  by rewrite Hrows, Hend.
Qed.

(** Storing a list of values one after the other: the last one stored
    under a key is the one found there. *)
Lemma stored_all_lookup {V} (id : V → string) delivered :
  ∀ (table : gmap string V) key,
  stored_all id table delivered !! key
  = last_stored id key delivered (table !! key).
Proof.
  unfold stored_all, last_stored.
  induction delivered as [|v delivered IH]; intros table key; [done|].
  cbn [foldl]. rewrite IH, filter_cons. case_decide as Hv.
  - rewrite last_cons, <- Hv, lookup_insert_eq.
    by destruct (last (filter _ delivered)).
  - by rewrite lookup_insert_ne.
Qed.

(** The loop of [PricingConnector::Subscribe] on any lines. *)
Lemma PricingConnector_Subscribe_any _data : ∀ service,
  let delivered :=
    (λ row, pricing_row row.1.1 row.1.2 row.2)
      <$> parsed_prefix pricing_parse_line _data in
  PricingConnector.Subscribe service _data
  = mkPricingRun
      (mkPricingService
         (stored_all (λ p, GetProductId (price_product p)) (prices service) delivered)
         (pricing_listeners service))
      (dispatch_all (pricing_listeners service) delivered)
      delivered (outcome_of pricing_parse_line _data).
Proof.
  induction _data as [|_line rest IH]; intros service; cbn zeta.
  - by destruct service.
  - cbn [parsed_prefix PricingConnector.Subscribe].
    destruct (pricing_parse_line _line) as [[[_productId _bid] _offer]|] eqn:Hp.
    + rewrite (outcome_of_cons_Some _ _ _ _ Hp). cbn zeta.
      unfold Pricing.OnMessage. rewrite IH. done.
    + rewrite outcome_of_cons_None by done. by destruct service.
Qed.

Lemma pricing_parse_line_empty _line :
  empty_cell 1 _line → pricing_parse_line _line = None.
Proof.
  unfold empty_cell. intros Hcell. unfold pricing_parse_line. cbn zeta.
  destruct (split_cells _line EmptyString !! 0%nat); [|done].
  cbn [mbind option_bind]. by rewrite Hcell.
Qed.

(** X11. [PricingConnector::Subscribe] on a file that may stop short.
    When the lines that can be read are followed by nothing, or by a
    line whose bid cell is empty (on which [stod] throws) and then by
    anything, one price is delivered per line read, built from that
    line, and the run ends normally in the first case and is aborted
    at the bad line in the second.  Every listener was called once per
    delivered price, in the order of the file, and the service holds
    under each product identifier the last price delivered for it: a
    later row of a product replaces the earlier one, and the prices of
    the products the file does not mention are untouched. *)
Theorem PricingConnector_stops (service : PricingService)
    (good tail : list string) :
  Forall (λ _line, is_Some (pricing_parse_line _line)) good →
  stops_at (empty_cell 1) tail →
  let r := PricingConnector.Subscribe service (good ++ tail) in
  prun_delivered r
  = (λ row, pricing_row row.1.1 row.1.2 row.2) <$> omap pricing_parse_line good
  ∧ prun_outcome r = ends tail
  ∧ prun_events r = dispatch_all (pricing_listeners service) (prun_delivered r)
  ∧ pricing_listeners (prun_service r) = pricing_listeners service
  ∧ ∀ key, prices (prun_service r) !! key
           = last_stored (λ p, GetProductId (price_product p)) key
               (prun_delivered r) (prices service !! key).
Proof.
  intros Hgood Htail. cbn zeta.
  destruct (parsed_prefix_stops pricing_parse_line good tail Hgood) as [Hrows Hend].
  { destruct Htail as [->|(bad & rest & -> & Hbad)]; [by left|right].
    exists bad, rest. split; [done|]. by apply pricing_parse_line_empty. }
  rewrite PricingConnector_Subscribe_any.
  cbn [prun_delivered prun_outcome prun_events prun_service pricing_listeners prices].
  rewrite Hrows, Hend.
  split_and!; [done..|]. intros key. apply stored_all_lookup.
Qed.

End ConnectorFacts.

(** ** The inquiry service, on every state and on any file *)

Section InquiryMoreFacts.

Lemma OnMessage_ingest depth s _data :
  (2 ≤ depth)%nat → InquirySvc.OnMessage depth s _data = Some (ingest s _data).
Proof.
  intros Hdepth. destruct depth as [|[|depth]]; [lia..|].
  unfold ingest. destruct (GetState _data) eqn:Hst.
  - rewrite decide_True by (by left).
    rewrite OnMessage_received_unfold by done.
    unfold InquirySvc.Publish, InquirySvc.Subscribe_inquiry.
    rewrite Hst, decide_True by done.
    rewrite OnMessage_quoted by done. by rewrite store_store.
  - rewrite decide_True by (by right). by rewrite OnMessage_quoted.
  - rewrite decide_False by (unfold open_state; rewrite Hst; by intros [|]).
    cbn [InquirySvc.OnMessage]. by rewrite Hst.
  - rewrite decide_False by (unfold open_state; rewrite Hst; by intros [|]).
    cbn [InquirySvc.OnMessage]. by rewrite Hst.
  - rewrite decide_False by (unfold open_state; rewrite Hst; by intros [|]).
    cbn [InquirySvc.OnMessage]. by rewrite Hst.
Qed.

(** X12. [InquiryService::OnMessage] on an inquiry in any state.  With
    room for one nested call through the connector the call returns,
    and its result does not depend on the room left.  An inquiry that
    arrives [QUOTED] is handled exactly as one that arrives [RECEIVED]:
    it is stored in state [DONE] and sent to every listener.  An
    inquiry that arrives [DONE], [REJECTED] or [CUSTOMER_REJECTED] is
    dropped: neither the stored inquiries nor the caller's inquiry
    change and no listener is called. *)
Theorem OnMessage_any_state (depth : nat) (s : InquiryService) (_data : Inquiry) :
  (2 ≤ depth)%nat →
  ∃ r, InquirySvc.OnMessage depth s _data = Some r
    ∧ inq_listeners (res_service r) = inq_listeners s
    ∧ (open_state _data →
         inquiries (res_service r)
         = <[GetInquiryId _data := SetState _data DONE]> (inquiries s)
         ∧ res_data r = SetState _data DONE
         ∧ res_events r = (λ l, (l, SetState _data DONE)) <$> inq_listeners s)
    ∧ (¬ open_state _data →
         res_service r = s ∧ res_data r = _data ∧ res_events r = []).
Proof.
  intros Hdepth. exists (ingest s _data).
  split; [by apply OnMessage_ingest|]. unfold ingest.
  case_decide as Hopen; cbn [res_service res_data res_events]; split_and!; done.
Qed.

(** The loop of [InquiryConnector::Subscribe(ifstream&)] on any lines. *)
Lemma InquiryConnector_Subscribe_any depth u_side u_state _data : ∀ service,
  (2 ≤ depth)%nat →
  let delivered :=
    done_of_rows (parsed_prefix (inq_parse_line u_side u_state) _data) in
  InquiryConnector.Subscribe depth u_side u_state service _data
  = Some (mkInqRun
            (mkInquiryService
               (stored_all GetInquiryId (inquiries service) delivered)
               (inq_listeners service))
            (dispatch_all (inq_listeners service) delivered)
            (outcome_of (inq_parse_line u_side u_state) _data)).
Proof.
  intros service Hdepth. revert service.
  induction _data as [|_line rest IH]; intros service; cbn zeta.
  - by destruct service.
  - cbn [parsed_prefix InquiryConnector.Subscribe].
    destruct (inq_parse_line u_side u_state _line) as [_inquiry|] eqn:Hp.
    + rewrite (outcome_of_cons_Some _ _ _ _ Hp).
      rewrite OnMessage_ingest by done. cbn [mbind option_bind].
      rewrite IH. cbn [mbind option_bind irun_service irun_events irun_outcome].
      unfold ingest, done_of_rows. rewrite filter_cons.
      case_decide; cbn [res_service res_events]; [|done].
      by rewrite fmap_cons.
    + rewrite outcome_of_cons_None by done. by destruct service.
Qed.

Lemma inq_parse_line_no_dash u_side u_state _line :
  no_dash_cell 4 _line → inq_parse_line u_side u_state _line = None.
Proof.
  intros (cell & Hcell & Hnd). unfold inq_parse_line, inq_parse_cells.
  destruct (split_cells _line EmptyString !! 0%nat); [|done].
  cbn [mbind option_bind].
  destruct (split_cells _line EmptyString !! 1%nat); [|done].
  cbn [mbind option_bind].
  destruct (split_cells _line EmptyString !! 2%nat); [|done].
  cbn [mbind option_bind].
  destruct (split_cells _line EmptyString !! 3%nat ≫= stol); [|done].
  cbn [mbind option_bind]. rewrite Hcell. cbn [mbind option_bind].
  by rewrite ConvertPrice_string_no_dash.
Qed.

(** X13. [InquiryConnector::Subscribe(ifstream&)] on a file that may
    stop short.  When the lines that can be read are followed by
    nothing, or by a line whose price has no dash (on which
    [ConvertPrice] makes [stod] throw) and then by anything, the run
    returns, normally in the first case and aborted at the bad line in
    the second.  Of the rows read, those in state [RECEIVED] or
    [QUOTED] are stored in state [DONE], the last row of an identifier
    replacing the earlier ones, and sent to every listener in the order
    of the file; the rows in any other state leave no trace.  So the
    file never leaves an inquiry in state [RECEIVED] or [QUOTED] in the
    service. *)
Theorem InquiryConnector_stops (depth : nat) (u_side : Side)
    (u_state : InquiryState) (service : InquiryService)
    (good tail : list string) :
  (2 ≤ depth)%nat →
  Forall (λ _line, is_Some (inq_parse_line u_side u_state _line)) good →
  stops_at (no_dash_cell 4) tail →
  let delivered := done_of_rows (omap (inq_parse_line u_side u_state) good) in
  ∃ r, InquiryConnector.Subscribe depth u_side u_state service (good ++ tail) = Some r
    ∧ irun_outcome r = ends tail
    ∧ irun_events r = dispatch_all (inq_listeners service) delivered
    ∧ inq_listeners (irun_service r) = inq_listeners service
    ∧ (∀ key, inquiries (irun_service r) !! key
              = last_stored GetInquiryId key delivered (inquiries service !! key))
    ∧ (∀ key i, inquiries (irun_service r) !! key = Some i →
         inquiries service !! key = Some i ∨ GetState i = DONE).
Proof.
  intros Hdepth Hgood Htail. cbn zeta.
  destruct (parsed_prefix_stops (inq_parse_line u_side u_state) good tail Hgood)
    as [Hrows Hend].
  { destruct Htail as [->|(bad & rest & -> & Hbad)]; [by left|right].
    exists bad, rest. split; [done|]. by apply inq_parse_line_no_dash. }
  eexists. split; [by apply InquiryConnector_Subscribe_any|].
  cbn [irun_outcome irun_events irun_service inq_listeners inquiries].
  rewrite Hrows, Hend. split_and!; [done..| |].
  - intros key. apply stored_all_lookup.
  - intros key i. rewrite stored_all_lookup. unfold last_stored.
    destruct (last (filter _ _)) as [j|] eqn:Hlast; [|by left].
    intros [= ->]. right.
    apply last_Some_elem_of, list_elem_of_filter in Hlast as [_ Hin].
    unfold done_of_rows in Hin. by apply list_elem_of_fmap in Hin as (j & -> & _).
Qed.

(** X14. [InquiryService::RejectInquiry] sets the stored inquiry of the
    identifier to [REJECTED] whatever its state was, [DONE] included,
    and changes no other field, no other inquiry and no listener; no
    listener is told.  For an identifier the service does not hold it
    creates an inquiry: a value-initialised one, whose own identifier is
    empty, in state [REJECTED]. *)
Theorem RejectInquiry_state (s : InquiryService) (_inquiryId : string) :
  let s' := InquirySvc.RejectInquiry s _inquiryId in
  inquiries s' !! _inquiryId
  = Some (SetState (default Inquiry_default (inquiries s !! _inquiryId)) REJECTED)
  ∧ (∀ key, key ≠ _inquiryId → inquiries s' !! key = inquiries s !! key)
  ∧ inq_listeners s' = inq_listeners s
  ∧ InquirySvc.RejectInquiry s' _inquiryId = s'.
Proof.
  cbn zeta. unfold InquirySvc.RejectInquiry, InquirySvc.GetData.
  destruct (inquiries s !! _inquiryId) as [i|] eqn:Hi; cbn [inquiries inq_listeners default].
  - rewrite !lookup_insert_eq. split_and!; [done| |done|].
    + intros key Hkey. by rewrite lookup_insert_ne.
    + cbn. by rewrite insert_insert_eq.
  - rewrite !lookup_insert_eq. split_and!; [done| |done|].
    + intros key Hkey. by rewrite !lookup_insert_ne.
    + cbn. by rewrite !insert_insert_eq.
Qed.

End InquiryMoreFacts.

(** ** The text of an inquiry *)

Section InquiryTextFacts.

Lemma stol_to_string q : 0 ≤ q ≤ LONG_MAX → stol (to_string q) = Some q.
Proof.
  intros Hq. destruct (to_string_nonneg q ltac:(lia)) as (u & -> & Hu & Hval).
  unfold stol. rewrite digits_prefix_string_of_uint, Hu, Hval.
  by rewrite decide_True by lia.
Qed.

(** X15. Reading back what [Inquiry::ToStrings] writes.  For an inquiry
    on a product [GetBond] knows by its identifier, with a quantity
    between 0 and [LONG_MAX] and a non-negative price whose whole
    points fit an [int], the cells [ToStrings] returns are read by the
    file connector as the same inquiry, identifier, product, side,
    quantity and state, with its price rounded down to a multiple of
    1/256; the default-initialised locals of the connector are never
    read. *)
Theorem Inquiry_ToStrings_parse (i : Inquiry) (u_side : Side)
    (u_state : InquiryState) :
  inq_product i = GetBond (GetProductId (inq_product i)) →
  0 ≤ inq_quantity i ≤ LONG_MAX →
  0 ≤ floor (inq_price i) ≤ INT_MAX →
  Inquiry_ToStrings i ≫= inq_parse_cells u_side u_state
  = Some (mkInquiry (GetInquiryId i) (inq_product i) (GetSide i) (inq_quantity i)
            (decimal (floor (inq_price i * of_Z 256)%Qc) 256) (GetState i)).
Proof.
  intros Hproduct Hq Hp. pose proof (floor_fraction_range (inq_price i)) as Hr.
  unfold Inquiry_ToStrings. rewrite ConvertPrice_double_text by done.
  cbn [mbind option_bind]. unfold inq_parse_cells.
  cbn [lookup list_lookup mbind option_bind].
  rewrite stol_to_string by done. cbn [mbind option_bind].
  rewrite ConvertPrice_string_text by lia. cbn [mbind option_bind].
  rewrite price_256_join, <- Hproduct.
  by destruct (GetSide i), (GetState i).
Qed.

End InquiryTextFacts.

(** ** From an order book to an execution *)

Section ExecutionFlowFacts.

Variable u : indeterminate.

Lemma even_of_nat k : Z.even (Z.of_nat k) = Nat.even k.
Proof.
  induction k as [|k IH]; [done|].
  rewrite Nat2Z.inj_succ, Z.even_succ, Nat.even_succ.
  by rewrite <- Z.negb_even, <- Nat.negb_even, IH.
Qed.

(** X16. From the algo execution service to the execution service.
    Whatever [AlgoExecutionToMarketDataListener::ProcessAdd] sends to a
    listener for an order book, [ExecutionToAlgoExecutionListener::ProcessAdd]
    turns into one execution: although it calls both [OnMessage] and
    [ExecuteOrder], the execution service ends with the order stored
    once under the product of the book and each of its listeners
    called once.  The order is a [MARKET] order on the product of the
    book with the identifier generated for the call, no hidden
    quantity and no parent. *)
Theorem algo_execution_executed (s : AlgoExecutionService) (_orderId : string)
    (_orderBook : OrderBook) (service : ExecutionService)
    (l : Listener) (e : AlgoExecution) :
  (l, e) ∈ (AlgoExecutionToMarketDataListener_ProcessAdd u s _orderId _orderBook).2 →
  let o := GetExecutionOrder e in
  ExecutionToAlgoExecutionListener_ProcessAdd service e
  = (mkExecutionService
       (<[GetProductId (book_product _orderBook) := o]> (executionOrders service))
       (exec_listeners service),
     (λ l', (l', o)) <$> exec_listeners service)
  ∧ eo_product o = book_product _orderBook
  ∧ GetOrderId o = _orderId ∧ GetOrderType o = MARKET
  ∧ hiddenQuantity o = of_Z 0 ∧ GetParentOrderId o = EmptyString
  ∧ IsChildOrder o = false.
Proof.
  unfold AlgoExecutionToMarketDataListener_ProcessAdd, AlgoExecuteOrder.
  case_decide as Hfire; [|by intros ?%elem_of_nil].
  destruct (if decide (Z.rem (count s) 2 = 0) then _ else _) as [[_price _quantity] _side].
  cbn [snd]. unfold dispatch. intros (l' & [= -> ->] & _)%list_elem_of_fmap.
  cbn zeta. rewrite ExecutionToAlgoExecutionListener_ProcessAdd_events.
  by split_and!.
Qed.

(** X17. The crosses of a run alternate.  On a service as its
    constructor leaves it, with one listener, and over any sequence of
    order books short enough for the counter, the spread stays 1/128,
    the counter counts the crosses, there is at most one cross per
    order book, and the crosses sent to the listener are on the bid,
    the offer, the bid, and so on, whatever books came in between
    without a cross. *)
Theorem AlgoExecuteOrders_alternation (l : Listener)
    (updates : list (string * OrderBook)) :
  Z.of_nat (length updates) ≤ LONG_MAX →
  let s := AlgoExecutionSvc.AddListener AlgoExecutionService_new l in
  let r := AlgoExecuteOrders u s updates in
  spread r.1 = (of_Z 1 / of_Z 128)%Qc
  ∧ count r.1 = Z.of_nat (length r.2)
  ∧ (length r.2 ≤ length updates)%nat
  ∧ ∀ k e, r.2 !! k = Some e →
      e.1 = l
      ∧ GetPricingSide (GetExecutionOrder e.2) = (if Nat.even k then BID else OFFER).
Proof.
  intros Hlen. cbn zeta.
  set (s := AlgoExecutionSvc.AddListener AlgoExecutionService_new l).
  destruct (AlgoExecuteOrders_invariant u updates s) as [Hspread _]; [done..|].
  destruct (AlgoExecuteOrders_alternate u updates s l) as (Hcount & Hle & Hside);
    [done..|].
  split_and!; [done|done|done|].
  intros k e He. split.
  - clear -He. revert s k He.
    assert (Hgen : ∀ updates s k, algo_listeners s = [l] →
              (AlgoExecuteOrders u s updates).2 !! k = Some e → e.1 = l).
    { clear. induction updates as [|[_orderId _orderBook] updates IH]; intros s k Hl.
      - cbn. by rewrite lookup_nil.
      - cbn [AlgoExecuteOrders].
        destruct (AlgoExecuteOrder u s _orderId _orderBook) as [s1 evs] eqn:H1.
        destruct (AlgoExecuteOrders u s1 updates) as [s2 evs'] eqn:H2. cbn [snd].
        assert (Hs1 : algo_listeners s1 = [l] ∧ ∀ e', e' ∈ evs → e'.1 = l).
        { unfold AlgoExecuteOrder in H1. case_decide.
          - destruct (if decide (Z.rem (count s) 2 = 0) then _ else _) as [[? ?] ?].
            injection H1 as <- <-. cbn [algo_listeners]. split; [done|].
            rewrite Hl. unfold dispatch. by intros e' ->%list_elem_of_singleton.
          - injection H1 as <- <-. split; [done|by intros ? ?%elem_of_nil]. }
        destruct Hs1 as [Hl1 Hevs]. intros [Hin|[_ Hin]]%lookup_app_Some.
        + by eapply Hevs, list_elem_of_lookup_2.
        + eapply (IH s1); [done|]. by rewrite H2. }
    intros s k. by apply Hgen.
  - rewrite (Hside _ _ He). change (count s) with 0. rewrite Z.add_0_l.
    unfold crossed_side. by rewrite even_of_nat.
Qed.

End ExecutionFlowFacts.

(** ** Reference data and cells *)

Section ReferenceFacts.

(** X18. [GetPV01Value] gives a value above 0 and below 1 to each of
    the six identifiers [GetBond] knows, and 0 to every other text. *)
Theorem GetPV01Value_known (_cusip : string) :
  (_cusip ∈ known_cusips → (0 < GetPV01Value _cusip)%Qc ∧ (GetPV01Value _cusip < 1)%Qc)
  ∧ (_cusip ∉ known_cusips → GetPV01Value _cusip = 0%Qc).
Proof.
  unfold known_cusips. split.
  - intros Hin.
    repeat (apply elem_of_cons in Hin as [->|Hin]; [by vm_compute|]).
    by apply elem_of_nil in Hin.
  - intros Hn. unfold GetPV01Value.
    repeat (rewrite decide_False; [|intros ->; apply Hn; set_solver]).
    done.
Qed.

Lemma split_cells_acc cell : ∀ acc rest,
  no_comma cell = true →
  split_cells (String.append cell (String "," rest)) acc
  = String.append acc cell :: split_cells rest EmptyString.
Proof.
  induction cell as [|c cell IH]; intros acc rest Hc.
  - rewrite append_empty_l, append_empty_r. cbn [split_cells].
    by rewrite decide_True.
  - cbn [no_comma] in Hc. case_decide as Hcomma; [done|].
    rewrite append_cons. cbn [split_cells]. rewrite decide_False by done.
    rewrite IH by done. by rewrite push_back_append.
Qed.

Lemma split_cells_last cell : ∀ acc,
  no_comma cell = true →
  split_cells cell acc
  = if decide (String.append acc cell = EmptyString) then []
    else [String.append acc cell].
Proof.
  induction cell as [|c cell IH]; intros acc Hc.
  - rewrite append_empty_r. done.
  - cbn [no_comma] in Hc. case_decide as Hcomma; [done|].
    cbn [split_cells]. rewrite decide_False by done.
    rewrite IH by done. by rewrite push_back_append.
Qed.

(** X19. The cells of a line, as the three connectors split it: a
    piece of text before a comma is a cell, empty or not, and the
    cells of what follows the comma come after it; the text after the
    last comma is a cell only if it is not empty.  So an empty cell in
    the middle of a line is kept, while a comma at the end of a line
    adds no cell. *)
Theorem split_cells_pieces (cell rest : string) :
  no_comma cell = true →
  split_cells (String.append cell (String "," rest)) EmptyString
  = cell :: split_cells rest EmptyString
  ∧ split_cells cell EmptyString
    = (if decide (cell = EmptyString) then [] else [cell])
  ∧ split_cells (String.append cell ",") EmptyString = [cell].
Proof.
  intros Hc. split_and!.
  - by rewrite split_cells_acc.
  - by rewrite split_cells_last.
  - by rewrite split_cells_acc.
Qed.

End ReferenceFacts.

(** * The further properties on concrete inputs *)

Lemma ConvertPrice_round_trip_floor_witness :
  0 ≤ floor (decimal 50689 512) ≤ INT_MAX
  ∧ ConvertPrice_double (decimal 50689 512) ≫= ConvertPrice_string
    = Some (decimal (floor (decimal 50689 512 * of_Z 256)%Qc) 256).
Proof.
  assert (H : 0 ≤ floor (decimal 50689 512) ≤ INT_MAX) by (by vm_compute).
  split; [exact H|]. exact (ConvertPrice_round_trip_floor _ H).
Defined.

Lemma ConvertPrice_string_accepted_witness :
  Z.of_nat (String.length "99-16+") ≤ INT_MAX
  ∧ ConvertPrice_string "99-16+" = Some (decimal 25476 256)
  ∧ ∃ w rest, "99-16+"%string = String.append w (String "-" rest)
            ∧ w ≠ EmptyString ∧ no_dash w = true
            ∧ (3 ≤ String.length rest)%nat.
Proof.
  assert (H1 : Z.of_nat (String.length "99-16+") ≤ INT_MAX) by (by vm_compute).
  assert (H2 : ConvertPrice_string "99-16+" = Some (decimal 25476 256)).
  { vm_compute. f_equal; by apply Qc_is_canon. }
  split; [exact H1|]. split; [exact H2|].
  exact (ConvertPrice_string_accepted _ _ H1 H2).
Defined.

Lemma ConvertPrice_string_value_witness :
  no_digit (D9 (D9 Nil)) = false ∧ Decimal.nb_digits (D3 (D3 Nil)) = 2%nat
  ∧ no_digit (D9 Nil) = false
  ∧ Z.of_uint (D9 (D9 Nil)) ≤ INT_MAX ∧ Z.of_uint (D9 Nil) ≤ INT_MAX
  ∧ ConvertPrice_string "99-339"
    = Some (of_Z 99 + of_Z 33 * 1 / of_Z 32 + of_Z 9 * 1 / of_Z 256)%Qc
  ∧ ConvertPrice_string "99-33+"
    = Some (of_Z 99 + of_Z 33 * 1 / of_Z 32 + of_Z 4 * 1 / of_Z 256)%Qc.
Proof.
  assert (H1 : Z.of_uint (D9 (D9 Nil)) ≤ INT_MAX) by (by vm_compute).
  assert (H2 : Z.of_uint (D9 Nil) ≤ INT_MAX) by (by vm_compute).
  split; [reflexivity|]. split; [reflexivity|]. split; [reflexivity|].
  split; [exact H1|]. split; [exact H2|].
  exact (ConvertPrice_string_value (D9 (D9 Nil)) (D3 (D3 Nil)) (D9 Nil)
           eq_refl eq_refl eq_refl H1 H2).
Defined.

Lemma MarketData_read_absent_witness :
  orderBooks MarketDataService_new !! "9128283H1"%string = None
  ∧ (MarketData.GetData MarketDataService_new "9128283H1").2 = OrderBook_default
  ∧ orderBooks (MarketData.GetData MarketDataService_new "9128283H1").1
      !! "9128283H1"%string = Some OrderBook_default
  ∧ orderBooks (GetBestBidOffer indeterminate_example MarketDataService_new
                  "9128283H1").1 !! "9128283H1"%string = Some OrderBook_default
  ∧ read (GetBestBidOffer indeterminate_example MarketDataService_new
            "9128283H1").2 = None.
Proof.
  assert (H : orderBooks MarketDataService_new !! "9128283H1"%string = None)
    by reflexivity.
  split; [exact H|].
  destruct (MarketData_read_absent indeterminate_example MarketDataService_new
              "9128283H1" H) as (Hget & Hbest & Hread & _).
  rewrite Hget, Hbest. split; [reflexivity|].
  split; [apply lookup_insert_eq|]. split; [apply lookup_insert_eq | exact Hread].
Defined.

Lemma MarketDataConnector_stops_witness :
  0 < bookDepth MarketDataService_new ≤ 2 ^ 30 - 1
  ∧ Forall (λ _line, is_Some (md_parse_line _line)) md_good_example
  ∧ stops_at (no_dash_cell 1) md_tail_example
  ∧ let r := MarketDataConnector.Subscribe MarketDataService_new
               (md_good_example ++ md_tail_example) in
    run_delivered r = [book_of_group (omap md_parse_line md_good_example)]
    ∧ run_outcome r = Aborted.
Proof.
  assert (H1 : 0 < bookDepth MarketDataService_new ≤ 2 ^ 30 - 1) by (by vm_compute).
  assert (H2 : Forall (λ _line, is_Some (md_parse_line _line)) md_good_example).
  { unfold md_good_example, md_file_example. cbn [take].
    repeat constructor; vm_compute; by eexists. }
  assert (H3 : stops_at (no_dash_cell 1) md_tail_example).
  { right. eexists _, _. split; [reflexivity|]. by exists "99"%string. }
  split; [exact H1|]. split; [exact H2|]. split; [exact H3|].
  destruct (MarketDataConnector_stops MarketDataService_new md_good_example
              md_tail_example H1 H2 H3) as (Hd & Hout & _).
  split; [|exact Hout]. rewrite Hd. reflexivity.
Defined.

Lemma PricingConnector_stops_witness :
  Forall (λ _line, is_Some (pricing_parse_line _line)) pricing_good_example
  ∧ stops_at (empty_cell 1) pricing_tail_example
  ∧ let r := PricingConnector.Subscribe pricing_service_example
               (pricing_good_example ++ pricing_tail_example) in
    length (prun_delivered r) = 2%nat
    ∧ prun_outcome r = Aborted
    ∧ prices (prun_service r) !! "9128283H1"%string = prun_delivered r !! 1%nat
    ∧ prices (prun_service r) !! "9128283L2"%string = None.
Proof.
  assert (H1 : Forall (λ _line, is_Some (pricing_parse_line _line))
                 pricing_good_example).
  { unfold pricing_good_example. repeat constructor; vm_compute; by eexists. }
  assert (H2 : stops_at (empty_cell 1) pricing_tail_example).
  { right. eexists _, _. split; reflexivity. }
  split; [exact H1|]. split; [exact H2|].
  destruct (PricingConnector_stops pricing_service_example pricing_good_example
              pricing_tail_example H1 H2) as (Hd & Hout & _ & _ & Hstore).
  cbn zeta. rewrite !Hstore, Hd, Hout. split; [reflexivity|]. split; [reflexivity|].
  split; reflexivity.
Defined.

Lemma OnMessage_any_state_witness :
  (2 ≤ 2)%nat
  ∧ InquirySvc.OnMessage 2 inquiry_service_example (SetState inquiry_example REJECTED)
    = Some (mkInqResult inquiry_service_example (SetState inquiry_example REJECTED) [])
  ∧ InquirySvc.OnMessage 2 inquiry_service_example (SetState inquiry_example QUOTED)
    = InquirySvc.OnMessage 2 inquiry_service_example inquiry_example.
Proof.
  split; [lia|].
  destruct (OnMessage_any_state 2 inquiry_service_example
              (SetState inquiry_example REJECTED) (le_n 2))
    as (r & Hr & _ & _ & Hclosed).
  destruct Hclosed as (Hs & Hd & He); [by intros [|]|].
  split; [|reflexivity]. rewrite Hr. destruct r. cbn in *. by subst.
Defined.

Lemma InquiryConnector_stops_witness :
  (2 ≤ 2)%nat
  ∧ Forall (λ _line, is_Some (inq_parse_line BUY RECEIVED _line)) inquiry_good_example
  ∧ stops_at (no_dash_cell 4) inquiry_tail_example
  ∧ ∃ r, InquiryConnector.Subscribe 2 BUY RECEIVED inquiry_service_example
           (inquiry_good_example ++ inquiry_tail_example) = Some r
       ∧ irun_outcome r = Aborted
       ∧ length (irun_events r) = 2%nat
       ∧ GetState <$> inquiries (irun_service r) !! "I1"%string = Some DONE
       ∧ inquiries (irun_service r) !! "I2"%string = None.
Proof.
  assert (H1 : Forall (λ _line, is_Some (inq_parse_line BUY RECEIVED _line))
                 inquiry_good_example).
  { unfold inquiry_good_example. repeat constructor; vm_compute; by eexists. }
  assert (H2 : stops_at (no_dash_cell 4) inquiry_tail_example).
  { right. eexists _, _. split; [reflexivity|]. by exists "100"%string. }
  split; [lia|]. split; [exact H1|]. split; [exact H2|].
  destruct (InquiryConnector_stops 2 BUY RECEIVED inquiry_service_example
              inquiry_good_example inquiry_tail_example (le_n 2) H1 H2)
    as (r & Hr & Hout & Hev & _ & Hstore & _).
  exists r. split; [exact Hr|]. split; [exact Hout|].
  rewrite Hev, !Hstore. split; [reflexivity|]. split; reflexivity.
Defined.

Lemma Inquiry_ToStrings_parse_witness :
  inq_product inquiry_example = GetBond (GetProductId (inq_product inquiry_example))
  ∧ 0 ≤ inq_quantity inquiry_example ≤ LONG_MAX
  ∧ 0 ≤ floor (inq_price inquiry_example) ≤ INT_MAX
  ∧ Inquiry_ToStrings inquiry_example
    = Some ["I1"; "912828M80"; "BUY"; "1000000"; "100-000"; "RECEIVED"]%string
  ∧ Inquiry_ToStrings inquiry_example ≫= inq_parse_cells SELL DONE
    = Some (mkInquiry "I1" (GetBond "912828M80") BUY 1000000
              (decimal (floor (of_Z 100 * of_Z 256)%Qc) 256) RECEIVED).
Proof.
  assert (H1 : inq_product inquiry_example
               = GetBond (GetProductId (inq_product inquiry_example))) by reflexivity.
  assert (H2 : 0 ≤ inq_quantity inquiry_example ≤ LONG_MAX) by (by vm_compute).
  assert (H3 : 0 ≤ floor (inq_price inquiry_example) ≤ INT_MAX) by (by vm_compute).
  split; [exact H1|]. split; [exact H2|]. split; [exact H3|].
  split; [by vm_compute|].
  exact (Inquiry_ToStrings_parse inquiry_example SELL DONE H1 H2 H3).
Defined.

Lemma algo_execution_executed_witness :
  let e := AlgoExecution_new (GetBond "912828M80") BID "ID0000000001" MARKET
             (decimal 25596 256) 1000000 0 EmptyString false in
  let service := Execution.AddListener ExecutionService_new 7%nat in
  (1%nat, e) ∈ (AlgoExecutionToMarketDataListener_ProcessAdd indeterminate_example
                  algo_example "ID0000000001" tight_book).2
  ∧ (ExecutionToAlgoExecutionListener_ProcessAdd service e).2
    = [(7%nat, GetExecutionOrder e)]
  ∧ executionOrders (ExecutionToAlgoExecutionListener_ProcessAdd service e).1
      !! "912828M80"%string = Some (GetExecutionOrder e).
Proof.
  cbn zeta.
  assert (H : (1%nat, AlgoExecution_new (GetBond "912828M80") BID "ID0000000001"
                        MARKET (decimal 25596 256) 1000000 0 EmptyString false)
              ∈ (AlgoExecutionToMarketDataListener_ProcessAdd indeterminate_example
                   algo_example "ID0000000001" tight_book).2).
  { vm_compute. left. }
  split; [exact H|].
  destruct (algo_execution_executed indeterminate_example algo_example "ID0000000001"
              tight_book (Execution.AddListener ExecutionService_new 7%nat) _ _ H)
    as (Hrun & _).
  rewrite Hrun. split; [reflexivity|]. apply lookup_insert_eq.
Defined.

Lemma AlgoExecuteOrders_alternation_witness :
  Z.of_nat (length updates_example) ≤ LONG_MAX
  ∧ let r := AlgoExecuteOrders indeterminate_example algo_example updates_example in
    count r.1 = Z.of_nat (length r.2)
    ∧ (∀ k e, r.2 !! k = Some e →
         e.1 = 1%nat
         ∧ GetPricingSide (GetExecutionOrder e.2) = (if Nat.even k then BID else OFFER)).
Proof.
  assert (H : Z.of_nat (length updates_example) ≤ LONG_MAX) by (by vm_compute).
  split; [exact H|].
  destruct (AlgoExecuteOrders_alternation indeterminate_example 1%nat updates_example H)
    as (_ & Hcount & _ & Hside).
  split; [exact Hcount | exact Hside].
Defined.

Lemma split_cells_pieces_witness :
  no_comma "99-16+" = true
  ∧ split_cells "99-16+,1000000,BID" EmptyString
    = "99-16+"%string :: split_cells "1000000,BID" EmptyString
  ∧ split_cells "99-16+," EmptyString = ["99-16+"%string].
Proof.
  split; [reflexivity|].
  destruct (split_cells_pieces "99-16+" "1000000,BID" eq_refl) as (H1 & _ & _).
  destruct (split_cells_pieces "99-16+" EmptyString eq_refl) as (_ & _ & H3).
  split; [exact H1 | exact H3].
Defined.
